(** * KushRouter SDK: the request execution engine

    A shallow embedding of [src/index.ts] (class [KushRouterSDK] and the
    error classes next to it): the retry loop of [makeRequest], the error
    objects it throws, the request normalisers, the header set handed to
    [fetch], and the server-sent-event decoder shared by [streamUnified],
    [streamOpenAI] and [streamAnthropic].

    Conventions.
    - A JavaScript string is a Rocq [string]; its characters stand for the
      code units 0..255.
    - A JavaScript value is a [value]; [VUndefined] is [undefined].  A number
      is kept as the text JavaScript prints for it, so [VNum "1"] is [1].
    - An object is a finite map from property names to values.
    - The runtime is explicit: what [fetch] answers on each attempt is an
      argument of [makeRequest], the calls to [fetch] and [sleep] are
      recorded in a trace, and [JSON.parse] is an argument of the decoders. *)

From Stdlib Require Import ZArith Ascii String List Lia.
From stdpp Require Import gmap strings list fin_maps pretty.

Local Open Scope string_scope.
Local Open Scope Z_scope.

Set Warnings "-register-all".

(* ===================================================================== *)
(** ** JavaScript values                                                  *)
(* ===================================================================== *)

Inductive value : Type :=
  | VUndefined
  | VNull
  | VBool (b : bool)
  | VNum (repr : string)
  | VStr (s : string)
  | VArr (elems : list value)
  | VObj (props : gmap string value).

Definition is_undefined (v : value) : bool :=
  match v with VUndefined => true | _ => false end.

Definition is_nullish (v : value) : bool :=
  match v with VUndefined | VNull => true | _ => false end.

(** [a ?? b] *)
Definition nullish_coalesce (a b : value) : value :=
  if is_nullish a then b else a.

(** ToBoolean, as used by [||] and [!]. *)
Definition truthy (v : value) : bool :=
  match v with
  | VUndefined | VNull => false
  | VBool b => b
  | VNum r => negb (String.eqb r "0" || String.eqb r "NaN")
  | VStr s => negb (String.eqb s "")
  | VArr _ | VObj _ => true
  end.

(** [a || b] *)
Definition logical_or (a b : value) : value :=
  if truthy a then a else b.

(** [o.k] for an own property of an object; absent properties read as
    [undefined]. *)
Definition get (o : gmap string value) (k : string) : value :=
  default VUndefined (o !! k).

(* ===================================================================== *)
(** ** Error objects                                                      *)
(* ===================================================================== *)

(** The classes an [instanceof] test can tell apart.  [Foreign] covers the
    errors of the runtime itself ([TypeError], the [AbortError] of a timed
    out [fetch], ...). *)
Inductive error_class : Type :=
  | ClassKushRouterError
  | ClassAuthenticationError
  | ClassInsufficientCreditsError
  | ClassRateLimitError
  | Foreign (name : string).

Record js_error : Type := mk_error {
  class : error_class;
  message : string;
  status : option Z;
  code : value;
  details : value
}.

(** A computation that either yields a value or throws. *)
Inductive result (A : Type) : Type :=
  | Ok (a : A)
  | Throw (e : js_error).
Arguments Ok {A} a.
Arguments Throw {A} e.

#[global] Instance result_bind : MBind result :=
  fun A B (k : A -> result B) (r : result A) =>
    match r with
    | Ok a => k a
    | Throw e => Throw e
    end.

Definition TypeError (msg : string) : js_error :=
  mk_error (Foreign "TypeError") msg None VUndefined VUndefined.

(** [base.key] for the property names read by [makeRequest] ([error],
    [message], [details], [type]): reading a property of [null] or
    [undefined] throws; primitives and arrays have no such property. *)
Definition member (base : value) (key : string) : result value :=
  match base with
  | VUndefined | VNull =>
      Throw (TypeError ("Cannot read properties of null (reading '" ++ key ++ "')"))
  | VObj props => Ok (get props key)
  | _ => Ok VUndefined
  end.

(** [base?.key] *)
Definition opt_member (base : value) (key : string) : result value :=
  if is_nullish base then Ok VUndefined else member base key.

(** ToString.  An object answers ["[object Object]"] unless it has a
    property of its own named [toString]: a value read from JSON is never
    callable, the inherited [valueOf] answers the object itself, and the
    conversion throws.  An array joins its elements with commas, [null] and
    [undefined] elements counting as empty. *)
Fixpoint ToString (v : value) : result string :=
  match v with
  | VUndefined => Ok "undefined"
  | VNull => Ok "null"
  | VBool b => Ok (if b then "true" else "false")
  | VNum r => Ok r
  | VStr s => Ok s
  | VArr elems =>
      (fix join (l : list value) : result string :=
         match l with
         | [] => Ok ""
         | x :: rest =>
             s ← (if is_nullish x then Ok "" else ToString x);
             match rest with
             | [] => Ok s
             | _ => r ← join rest; Ok (s ++ "," ++ r)
             end
         end) elems
  | VObj props =>
      match props !! "toString" with
      | Some _ => Throw (TypeError "Cannot convert object to primitive value")
      | None => Ok "[object Object]"
      end
  end.

(** [class KushRouterError extends Error]: [super(message)] stores
    ToString of the message. *)
Definition KushRouterError (message : value) (status : option Z)
    (code details : value) : result js_error :=
  m ← (if is_undefined message then Ok "" else ToString message);
  Ok (mk_error ClassKushRouterError m status code details).

Definition with_class (c : error_class) (e : js_error) : js_error :=
  mk_error c (message e) (status e) (code e) (details e).

(** A parameter default applies when the argument is [undefined]. *)
Definition param_default (arg : value) (dflt : string) : value :=
  if is_undefined arg then VStr dflt else arg.

Definition AuthenticationError (message : value) : result js_error :=
  e ← KushRouterError (param_default message "Invalid API key")
         (Some 401) (VStr "authentication_error") VUndefined;
  Ok (with_class ClassAuthenticationError e).

Definition InsufficientCreditsError (message details : value) : result js_error :=
  e ← KushRouterError (param_default message "Insufficient credits")
         (Some 402) (VStr "insufficient_credits") details;
  Ok (with_class ClassInsufficientCreditsError e).

Definition RateLimitError (message : value) : result js_error :=
  e ← KushRouterError (param_default message "Rate limit exceeded")
         (Some 429) (VStr "rate_limit_exceeded") VUndefined;
  Ok (with_class ClassRateLimitError e).

(** [error instanceof AuthenticationError], [... InsufficientCreditsError] *)
Definition instanceof_AuthenticationError (e : js_error) : bool :=
  match class e with ClassAuthenticationError => true | _ => false end.

Definition instanceof_InsufficientCreditsError (e : js_error) : bool :=
  match class e with ClassInsufficientCreditsError => true | _ => false end.

(* ===================================================================== *)
(** ** The client and its requests                                        *)
(* ===================================================================== *)

Record SDKConfig : Type := {
  config_apiKey : string;
  config_timeout : option Z;
  config_retries : option Z
}.

Record KushRouterSDK : Type := {
  baseURL : string;
  apiKey : string;
  timeout : Z;
  retries : Z
}.

(** [config.field || dflt] on an optional number. *)
Definition number_or (field : option Z) (dflt : Z) : Z :=
  match field with
  | Some 0 | None => dflt
  | Some n => n
  end.

(** The constructor; [None] when it throws ['API key is required']. *)
Definition new_KushRouterSDK (config : SDKConfig) : option KushRouterSDK :=
  if String.eqb (config_apiKey config) "" then None
  else Some {| baseURL := "https://api.kushrouter.com";
               apiKey := config_apiKey config;
               timeout := number_or (config_timeout config) 30000;
               retries := number_or (config_retries config) 3 |}.

(** [base.replace(/\/$/, '')] *)
Fixpoint strip_trailing_slash (s : string) : string :=
  match s with
  | EmptyString => EmptyString
  | String c EmptyString => if Ascii.eqb c "/" then EmptyString else s
  | String c rest => String c (strip_trailing_slash rest)
  end.

Definition joinUrl (base path : string) : string :=
  let cleanBase := strip_trailing_slash base in
  let cleanPath := if String.prefix "/" path then path else "/" ++ path in
  cleanBase ++ cleanPath.

(** A request body: the JSON text of a value ([JSON.stringify(v)]) or a
    multipart form, given by its entries. *)
Inductive body_init : Type :=
  | JSONText (v : value)
  | Multipart (entries : list (string * string)).

Record RequestInit : Type := {
  init_method : option string;
  init_body : option body_init;
  init_headers : gmap string string
}.

(** What one call of [fetch] is given. *)
Record fetch_call : Type := {
  call_url : string;
  call_method : option string;
  call_body : option body_init;
  call_headers : gmap string string
}.

(** The header object of [makeRequest]: a later spread overrides an earlier
    property of the same name. *)
Definition request_headers (key : string) (useBearer : bool)
    (options_headers : gmap string string) : gmap string string :=
  options_headers
    ∪ ((if useBearer then {[ "Authorization" := "Bearer " ++ key ]}
        else {[ "x-api-key" := key ]})
    ∪ {[ "Content-Type" := "application/json" ]}).

(** A response as [makeRequest] reads it: the status and what
    [response.json()] gives ([None] when it rejects). *)
Record response : Type := {
  resp_status : Z;
  resp_json : option value
}.

(** [response.ok] *)
Definition ok (r : response) : bool :=
  (200 <=? resp_status r) && (resp_status r <=? 299).

(** What [fetch] does on one attempt: it resolves with a response, or
    rejects with an error of the runtime (a network failure, or the abort
    fired by the timeout). *)
Inductive fetch_outcome : Type :=
  | Resolves (r : response)
  | Rejects (name msg : string).

Inductive event : Type :=
  | EvFetch (c : fetch_call)
  | EvSleep (ms : Z).

(** The exception a [throw new C(...)] statement raises: the constructed
    error, or the exception raised while evaluating the arguments. *)
Definition thrown (r : result js_error) : js_error :=
  match r with
  | Ok e => e
  | Throw e => e
  end.

(** [errorData.error?.key] *)
Definition error_field (errorData : value) (key : string) : result value :=
  error ← member errorData "error"; opt_member error key.

(** The [switch (response.status)] of [makeRequest], as the exception its
    [throw] statement raises for a status and the parsed error body. *)
Definition classify (status : Z) (errorData : value) : js_error :=
  if status =? 401 then
    thrown (m ← error_field errorData "message"; AuthenticationError m)
  else if status =? 402 then
    thrown (m ← error_field errorData "message";
            d ← error_field errorData "details";
            InsufficientCreditsError m d)
  else if status =? 429 then
    thrown (m ← error_field errorData "message"; RateLimitError m)
  else
    thrown (m ← error_field errorData "message";
            t ← error_field errorData "type";
            KushRouterError (logical_or m (VStr ("HTTP " ++ pretty status)))
              (Some status) t VUndefined).

(** [await response.json().catch(() => ({}))] *)
Definition errorData_of (r : response) : value :=
  default (VObj ∅) (resp_json r).

Inductive try_outcome : Type :=
  | TryReturn (r : response)
  | TryContinue (delay : Z)
  | TryThrow (e : js_error).

(** The [try] block of one loop iteration. *)
Definition try_block (retries attempt : Z) (o : fetch_outcome) : try_outcome :=
  match o with
  | Rejects name msg =>
      TryThrow (mk_error (Foreign name) msg None VUndefined VUndefined)
  | Resolves response =>
      if ok response then TryReturn response
      else
        let errorData := errorData_of response in
        if (resp_status response =? 429) && (attempt <? retries)
        then TryContinue (2 ^ attempt * 1000)
        else TryThrow (classify (resp_status response) errorData)
  end.

(** How [makeRequest] ends: it returns the response, or throws.  The
    thrown value is [None] when [lastError] was never assigned. *)
Inductive completion : Type :=
  | Returned (r : response)
  | Threw (e : option js_error).

Definition after (evs : list event) (k : option (completion * list event))
    : option (completion * list event) :=
  match k with
  | Some (c, tr) => Some (c, (evs ++ tr)%list)
  | None => None
  end.

(** The [for] loop.  [fuel] bounds the number of iterations; [None] means
    the bound was reached. *)
Fixpoint attempt_loop (fuel : nat) (net : Z -> fetch_outcome) (call : fetch_call)
    (retries attempt : Z) (lastError : option js_error)
    : option (completion * list event) :=
  match fuel with
  | O => None
  | S fuel' =>
      if attempt <=? retries then
        match try_block retries attempt (net attempt) with
        | TryReturn r => Some (Returned r, [EvFetch call])
        | TryContinue delay =>
            after [EvFetch call; EvSleep delay]
              (attempt_loop fuel' net call retries (attempt + 1) lastError)
        | TryThrow error =>
            if instanceof_AuthenticationError error
               || instanceof_InsufficientCreditsError error
            then Some (Threw (Some error), [EvFetch call])
            else if attempt =? retries
            then Some (Threw (Some error), [EvFetch call])
            else
              after [EvFetch call; EvSleep (1000 * attempt)]
                (attempt_loop fuel' net call retries (attempt + 1) (Some error))
        end
      else Some (Threw lastError, [])
  end.

(** [makeRequest]: [net attempt] is what [fetch] does in the iteration
    numbered [attempt]. *)
Definition makeRequest_call (sdk : KushRouterSDK) (endpoint : string)
    (options : RequestInit) (useBearer : bool) : fetch_call :=
  {| call_url := joinUrl (baseURL sdk) endpoint;
     call_method := init_method options;
     call_body := init_body options;
     call_headers := request_headers (apiKey sdk) useBearer (init_headers options) |}.

Definition makeRequest (sdk : KushRouterSDK) (net : Z -> fetch_outcome)
    (endpoint : string) (options : RequestInit) (useBearer : bool)
    : option (completion * list event) :=
  attempt_loop (S (Z.to_nat (retries sdk))) net
    (makeRequest_call sdk endpoint options useBearer) (retries sdk) 1 None.

(** [files.upload] *)
Inductive upload_content : Type :=
  | TextContent (content : string)
  | FormDataContent (entries : list (string * string)).

Definition files_upload_options (content : upload_content) (filename : option string)
    : RequestInit :=
  match content with
  | TextContent text =>
      let name := match filename with
                  | Some f => if String.eqb f "" then "batch.jsonl" else f
                  | None => "batch.jsonl"
                  end in
      {| init_method := Some "POST";
         init_body := Some (JSONText (VObj {[ "content" := VStr text;
                                              "filename" := VStr name ]}));
         init_headers := {[ "Content-Type" := "application/json" ]} |}
  | FormDataContent entries =>
      {| init_method := Some "POST";
         init_body := Some (Multipart entries);
         init_headers := ∅ |}
  end.

Definition files_upload (sdk : KushRouterSDK) (net : Z -> fetch_outcome)
    (content : upload_content) (filename : option string)
    : option (completion * list event) :=
  makeRequest sdk net "/api/v1/files" (files_upload_options content filename) false.

(* ===================================================================== *)
(** ** Request normalisation                                              *)
(* ===================================================================== *)

(** One block of the normalisers:
    [if (out.alt !== undefined) { out.wire = out.wire ?? out.alt; delete out.alt; }] *)
Definition rename_field (alt wire : string) (out : gmap string value)
    : gmap string value :=
  if is_undefined (get out alt) then out
  else delete alt (<[ wire := nullish_coalesce (get out wire) (get out alt) ]> out).

(** [{ ...req }] for a value that passed the guard
    [!req || typeof req !== 'object']: the own properties of an object, the
    indexed elements of an array. *)
Definition spread (req : value) : gmap string value :=
  match req with
  | VObj props => props
  | VArr elems => list_to_map (imap (fun (i : nat) x => (pretty i, x)) elems)
  | _ => ∅
  end.

Definition normalizeUnifiedRequest (req : value) : value :=
  match req with
  | VObj _ | VArr _ =>
      let out := spread req in
      let out := rename_field "maxTokens" "max_tokens" out in
      let out := rename_field "toolChoice" "tool_choice" out in
      let out := rename_field "timeoutMs" "timeout_ms" out in
      let out := rename_field "promptCache" "prompt_cache" out in
      let out := rename_field "reasoningEffort" "reasoning_effort" out in
      let out := rename_field "mcpServers" "mcp_servers" out in
      VObj out
  | _ => req
  end.

Definition normalizeOpenAIRequest (req : value) : value :=
  match req with
  | VObj _ | VArr _ =>
      let out := spread req in
      let out := rename_field "maxTokens" "max_tokens" out in
      let out := rename_field "toolChoice" "tool_choice" out in
      let out := rename_field "reasoningEffort" "reasoning_effort" out in
      let out := rename_field "responseFormat" "response_format" out in
      let out := rename_field "timeoutMs" "timeout_ms" out in
      let out := rename_field "mcpServers" "mcp_servers" out in
      VObj out
  | _ => req
  end.

(** The fields each normaliser renames, alternate form first. *)
Definition unified_fields : list (string * string) :=
  [ ("maxTokens", "max_tokens"); ("toolChoice", "tool_choice");
    ("timeoutMs", "timeout_ms"); ("promptCache", "prompt_cache");
    ("reasoningEffort", "reasoning_effort"); ("mcpServers", "mcp_servers") ].

Definition openai_fields : list (string * string) :=
  [ ("maxTokens", "max_tokens"); ("toolChoice", "tool_choice");
    ("reasoningEffort", "reasoning_effort"); ("responseFormat", "response_format");
    ("timeoutMs", "timeout_ms"); ("mcpServers", "mcp_servers") ].

(** A property of a normalised request; [None] when the normaliser did not
    answer an object. *)
Definition property (v : value) (k : string) : option value :=
  match v with
  | VObj props => props !! k
  | _ => None
  end.

(* ===================================================================== *)
(** ** Strings of the stream decoder                                      *)
(* ===================================================================== *)

Definition newline : ascii := "010"%char.

Definition dquote : ascii := "034"%char.

Definition cons_head (c : ascii) (parts : list string) : list string :=
  match parts with
  | first :: others => String c first :: others
  | [] => [String c EmptyString]
  end.

(** [s.split(sep)] for a separator of one character. *)
Fixpoint split (sep : ascii) (s : string) : list string :=
  match s with
  | EmptyString => [EmptyString]
  | String c rest =>
      if Ascii.eqb c sep then EmptyString :: split sep rest
      else cons_head c (split sep rest)
  end.

(** [s.slice(n)] for [n >= 0] *)
Fixpoint slice (n : nat) (s : string) : string :=
  match n, s with
  | O, _ => s
  | S n', String _ rest => slice n' rest
  | S _, EmptyString => EmptyString
  end.

(** White space and line terminators among the code units 0..255. *)
Definition is_white_space (c : ascii) : bool :=
  match N_of_ascii c with
  | 9%N | 10%N | 11%N | 12%N | 13%N | 32%N | 160%N => true
  | _ => false
  end.

Fixpoint trim_start (s : string) : string :=
  match s with
  | EmptyString => EmptyString
  | String c rest => if is_white_space c then trim_start rest else s
  end.

Fixpoint trim_end (s : string) : string :=
  match s with
  | EmptyString => EmptyString
  | String c rest =>
      match trim_end rest with
      | EmptyString => if is_white_space c then EmptyString else String c EmptyString
      | kept => String c kept
      end
  end.

Definition trim (s : string) : string := trim_end (trim_start s).

(** [chunks.join('')]: the whole text a reader delivers. *)
Fixpoint whole (chunks : list string) : string :=
  match chunks with
  | [] => EmptyString
  | chunk :: more => chunk ++ whole more
  end.

Definition newline_free (s : string) : Prop := split newline s = [s].

(* ===================================================================== *)
(** ** The stream decoder                                                 *)
(* ===================================================================== *)

(** How the generator ends: at the [[DONE]] line ([return]) or when the
    reader reports [done] ([break]). *)
Inductive stream_end : Type :=
  | SawDone
  | SourceExhausted.

Section Decoder.

(** [JSON.parse]; [None] when it throws. *)
Variable JSON_parse : string -> option value.

(** The [for (const line of lines)] loop: the frames it yields, and
    whether it returned at a [[DONE]] line. *)
Fixpoint process_lines (lines : list string) : list value * bool :=
  match lines with
  | [] => ([], false)
  | line :: rest =>
      if String.prefix "data: " line then
        let data := trim (slice 6 line) in
        if String.eqb data "[DONE]" then ([], true)
        else
          match JSON_parse data with
          | Some parsed =>
              let '(frames, finished) := process_lines rest in
              (parsed :: frames, finished)
          | None => process_lines rest
          end
      else process_lines rest
  end.

(** The [while (true)] loop.  [chunks] lists, in order, the text
    [decoder.decode(value, { stream: true })] gives for each chunk read
    before the reader reports [done]. *)
Fixpoint read_loop (chunks : list string) (buffer : string)
    : list value * stream_end :=
  match chunks with
  | [] => ([], SourceExhausted)
  | chunk :: more =>
      let buffer := buffer ++ chunk in
      let lines := split newline buffer in
      let buffer := List.last lines EmptyString in
      let lines := removelast lines in
      match process_lines lines with
      | (frames, true) => (frames, SawDone)
      | (frames, false) =>
          let '(later, ending) := read_loop more buffer in
          ((frames ++ later)%list, ending)
      end
  end.

(** The three generators run the same loop from [let buffer = '']. *)
Definition streamUnified (chunks : list string) : list value * stream_end :=
  read_loop chunks "".

Definition streamOpenAI (chunks : list string) : list value * stream_end :=
  read_loop chunks "".

Definition streamAnthropic (chunks : list string) : list value * stream_end :=
  read_loop chunks "".

(** The lines of a text that a newline ends. *)
Definition complete_lines (text : string) : list string :=
  removelast (split newline text).

(** The frame a single line yields, if any. *)
Definition frame_of_line (line : string) : option value :=
  if String.prefix "data: " line then JSON_parse (trim (slice 6 line)) else None.

Definition is_done_line (line : string) : bool :=
  String.prefix "data: " line && String.eqb (trim (slice 6 line)) "[DONE]".

Definition finish (r : list value * bool) : list value * stream_end :=
  (r.1, if r.2 then SawDone else SourceExhausted).

End Decoder.

(* ===================================================================== *)
(** ** A parser for a fragment of JSON                                    *)
(* ===================================================================== *)

(** [JSON.parse] belongs to the runtime, and the decoder above takes it as
    an argument.  [parse_json] is a parser to run the decoder with: it
    reads [null], [true], [false], integers of at most fifteen digits,
    strings without escapes, arrays and objects, with JSON white space
    between tokens.  On a text outside this fragment it answers [None]. *)
Module Fragment.

Definition is_json_space (c : ascii) : bool :=
  match N_of_ascii c with
  | 9%N | 10%N | 13%N | 32%N => true
  | _ => false
  end.

Fixpoint skip_space (s : string) : string :=
  match s with
  | EmptyString => EmptyString
  | String c rest => if is_json_space c then skip_space rest else s
  end.

Definition is_digit (c : ascii) : bool :=
  (48 <=? N_of_ascii c)%N && (N_of_ascii c <=? 57)%N.

Fixpoint take_digits (s : string) : string * string :=
  match s with
  | EmptyString => (EmptyString, EmptyString)
  | String c rest =>
      if is_digit c then
        let '(digits, after) := take_digits rest in (String c digits, after)
      else (EmptyString, s)
  end.

(** The literal [word] at the head of [s]. *)
Definition expect (word : string) (v : value) (s : string)
    : option (value * string) :=
  if String.prefix word s then Some (v, slice (String.length word) s) else None.

(** The characters of a string literal up to its closing quote. *)
Fixpoint string_body (s : string) : option (string * string) :=
  match s with
  | EmptyString => None
  | String c rest =>
      if Ascii.eqb c dquote then Some (EmptyString, rest)
      else if Ascii.eqb c "\" then None
      else if (N_of_ascii c <? 32)%N then None
      else
        match string_body rest with
        | Some (body, after) => Some (String c body, after)
        | None => None
        end
  end.

(** An integer literal without sign. *)
Definition unsigned (s : string) : option (string * string) :=
  let '(digits, after) := take_digits s in
  let well_formed :=
    match digits with
    | EmptyString => false
    | String c EmptyString => true
    | String c _ => negb (Ascii.eqb c "0")
    end in
  let plain :=
    match after with
    | String c _ => negb (Ascii.eqb c "." || Ascii.eqb c "e" || Ascii.eqb c "E")
    | EmptyString => true
    end in
  if well_formed && plain && (String.length digits <=? 15)%nat
  then Some (digits, after) else None.

Fixpoint parse_value (fuel : nat) (s : string) : option (value * string) :=
  match fuel with
  | O => None
  | S fuel' =>
      match skip_space s with
      | EmptyString => None
      | String c rest =>
          if Ascii.eqb c "n" then expect "null" VNull (String c rest)
          else if Ascii.eqb c "t" then expect "true" (VBool true) (String c rest)
          else if Ascii.eqb c "f" then expect "false" (VBool false) (String c rest)
          else if Ascii.eqb c dquote then
            match string_body rest with
            | Some (body, after) => Some (VStr body, after)
            | None => None
            end
          else if Ascii.eqb c "[" then
            match skip_space rest with
            | String d after =>
                if Ascii.eqb d "]" then Some (VArr [], after)
                else parse_elements fuel' [] rest
            | EmptyString => None
            end
          else if Ascii.eqb c "{" then
            match skip_space rest with
            | String d after =>
                if Ascii.eqb d "}" then Some (VObj ∅, after)
                else parse_members fuel' ∅ rest
            | EmptyString => None
            end
          else if Ascii.eqb c "-" then
            match unsigned rest with
            | Some (digits, after) =>
                Some (VNum (if String.eqb digits "0" then "0" else "-" ++ digits), after)
            | None => None
            end
          else
            match unsigned (String c rest) with
            | Some (digits, after) => Some (VNum digits, after)
            | None => None
            end
      end
  end
with parse_elements (fuel : nat) (seen : list value) (s : string)
    : option (value * string) :=
  match fuel with
  | O => None
  | S fuel' =>
      match parse_value fuel' s with
      | Some (v, rest) =>
          match skip_space rest with
          | String c after =>
              if Ascii.eqb c "," then parse_elements fuel' (seen ++ [v])%list after
              else if Ascii.eqb c "]" then Some (VArr (seen ++ [v])%list, after)
              else None
          | EmptyString => None
          end
      | None => None
      end
  end
with parse_members (fuel : nat) (seen : gmap string value) (s : string)
    : option (value * string) :=
  match fuel with
  | O => None
  | S fuel' =>
      match skip_space s with
      | String q rest =>
          if Ascii.eqb q dquote then
            match string_body rest with
            | Some (key, rest) =>
                match skip_space rest with
                | String c rest =>
                    if Ascii.eqb c ":" then
                      match parse_value fuel' rest with
                      | Some (v, rest) =>
                          match skip_space rest with
                          | String d after =>
                              if Ascii.eqb d "," then
                                parse_members fuel' (<[ key := v ]> seen) after
                              else if Ascii.eqb d "}" then
                                Some (VObj (<[ key := v ]> seen), after)
                              else None
                          | EmptyString => None
                          end
                      | None => None
                      end
                    else None
                | EmptyString => None
                end
            | None => None
            end
          else None
      | EmptyString => None
      end
  end.

Definition parse_json (s : string) : option value :=
  match parse_value (S (String.length s)) s with
  | Some (v, rest) =>
      match skip_space rest with
      | EmptyString => Some v
      | _ => None
      end
  | None => None
  end.

End Fragment.

(** The text of the round-trip example:
    two frames, then the [[DONE]] line, each followed by a blank line. *)
Definition nl : string := String newline EmptyString.

Definition quoted (s : string) : string :=
  String dquote s ++ String dquote EmptyString.

(** [{"a":n}] *)
Definition payload_a (n : string) : string :=
  "{" ++ quoted "a" ++ ":" ++ n ++ "}".

Definition sse_example : string :=
  "data: " ++ payload_a "1" ++ nl ++ nl ++ "data: " ++ payload_a "2" ++ nl ++ nl
  ++ "data: [DONE]" ++ nl ++ nl.

Definition frame_a (n : string) : value := VObj {[ "a" := VNum n ]}.

(* ===================================================================== *)
(** ** Sample inputs                                                      *)
(* ===================================================================== *)

Definition sample_config : SDKConfig :=
  {| config_apiKey := "sk-sample"; config_timeout := None; config_retries := None |}.

Definition sample_sdk : KushRouterSDK :=
  {| baseURL := "https://api.kushrouter.com"; apiKey := "sk-sample";
     timeout := 30000; retries := 3 |}.

Definition post_json (v : value) : RequestInit :=
  {| init_method := Some "POST"; init_body := Some (JSONText v); init_headers := ∅ |}.

(** A server that answers every attempt alike. *)
Definition always (o : fetch_outcome) : Z -> fetch_outcome := fun _ => o.

Definition error_body (fields : gmap string value) : value :=
  VObj {[ "error" := VObj fields ]}.

Definition answer (status : Z) (body : option value) : fetch_outcome :=
  Resolves {| resp_status := status; resp_json := body |}.

(** The exception the [try] block raises for an outcome that is neither a
    success nor a retried 429. *)
Definition failure_of (o : fetch_outcome) : js_error :=
  match o with
  | Rejects name msg => mk_error (Foreign name) msg None VUndefined VUndefined
  | Resolves r => classify (resp_status r) (errorData_of r)
  end.

(** An attempt fails with a RateLimit-classified error. *)
Definition rate_limited (o : fetch_outcome) : Prop :=
  exists r, o = Resolves r /\ resp_status r = 429
            /\ class (failure_of o) = ClassRateLimitError.

(** An attempt fails with an Authentication- or InsufficientCredits-classified
    error. *)
Definition fatal (o : fetch_outcome) : Prop :=
  exists r, o = Resolves r
            /\ ((resp_status r = 401 /\ class (failure_of o) = ClassAuthenticationError)
                \/ (resp_status r = 402
                    /\ class (failure_of o) = ClassInsufficientCreditsError)).

(** An attempt fails with a Generic error: the transport failed, or the
    status is outside 2xx and is none of 401, 402, 429. *)
Definition generic_failure (o : fetch_outcome) : Prop :=
  match o with
  | Rejects _ _ => True
  | Resolves r =>
      ok r = false /\ resp_status r <> 401 /\ resp_status r <> 402
      /\ resp_status r <> 429
  end.

(** [errorData.error?.key] for a body that is an object. *)
Definition nested (body : value) (key : string) : value :=
  match body with
  | VObj props =>
      match get props "error" with
      | VObj fields => get fields key
      | _ => VUndefined
      end
  | _ => VUndefined
  end.

Definition rate_limited_server : Z -> fetch_outcome :=
  always (answer 429 (Some (error_body {[ "message" := VStr "slow down" ]}))).

Definition unauthorized_server : Z -> fetch_outcome :=
  always (answer 401 (Some (error_body {[ "message" := VStr "bad key" ]}))).

(** A server that answers 503, and whose second answer never arrives. *)
Definition failing_server : Z -> fetch_outcome :=
  fun attempt =>
    if attempt =? 2 then Rejects "AbortError" "This operation was aborted"
    else answer 503 None.

Definition credits_body : value :=
  error_body {[ "message" := VStr "Out of credits";
                "type" := VStr "billing";
                "details" := VStr "top up at /billing" ]}.

Definition invalid_key_body : value :=
  error_body {[ "type" := VStr "invalid_api_key" ]}.

Definition sample_form : list (string * string) :=
  [ ("purpose", "batch"); ("file", "{}") ].

Definition accepting_server : Z -> fetch_outcome :=
  always (answer 200 (Some (VObj ∅))).

(** The two normalisers and the fields each one renames. *)
Inductive surface : Type := Unified | OpenAI.

Definition normalize (s : surface) : value -> value :=
  match s with
  | Unified => normalizeUnifiedRequest
  | OpenAI => normalizeOpenAIRequest
  end.

Definition renamed_fields (s : surface) : list (string * string) :=
  match s with
  | Unified => unified_fields
  | OpenAI => openai_fields
  end.

Definition both_spellings : gmap string value :=
  {[ "model" := VStr "gpt-4o"; "max_tokens" := VNum "256"; "maxTokens" := VNum "100" ]}.

Definition null_wire_form : gmap string value :=
  {[ "model" := VStr "gpt-4o"; "max_tokens" := VNull; "maxTokens" := VNum "100" ]}.

(** The line that carries the frame [{"a":n}]. *)
Definition frame_line (n : string) : string := "data: " ++ payload_a n.

(** The example text cut in the middle of its first line. *)
Definition example_first : string := String.substring 0 10 sse_example.
Definition example_second : string := slice 10 sse_example.

(** A frame, a malformed line cut in two by the chunk boundary, a frame. *)
Definition malformed_line : string := "data: not-json".

Definition malformed_chunks : list string :=
  [ frame_line "1" ++ nl ++ nl ++ "data: no";
    "t-json" ++ nl ++ nl ++ frame_line "2" ++ nl ++ nl ].

Definition wellformed_chunks : list string :=
  [ frame_line "1" ++ nl ++ nl; nl ++ frame_line "2" ++ nl ++ nl ].

(** Two frames and no [[DONE]] line; the second frame has no newline. *)
Definition unfinished_chunks : list string :=
  [ frame_line "1" ++ nl ++ nl ++ "data: "; payload_a "2" ].

(** The only exceptions a computation raises are [TypeError]s. *)
Definition throws_only_TypeError {A} (r : result A) : Prop :=
  forall e, r = Throw e -> class e = Foreign "TypeError".

(** The text is empty or ends with a newline. *)
Definition ends_lines (s : string) : Prop :=
  List.last (split newline s) EmptyString = EmptyString.

(* ===================================================================== *)
(** ** Reading a trace                                                    *)
(* ===================================================================== *)

(** The number of calls of [fetch] and the delays of [sleep], in order. *)
Fixpoint fetches (trace : list event) : nat :=
  match trace with
  | [] => O
  | EvFetch _ :: rest => S (fetches rest)
  | EvSleep _ :: rest => fetches rest
  end.

Fixpoint sleeps (trace : list event) : list Z :=
  match trace with
  | [] => []
  | EvFetch _ :: rest => sleeps rest
  | EvSleep ms :: rest => ms :: sleeps rest
  end.

Definition total_sleep (trace : list event) : Z := foldr Z.add 0 (sleeps trace).

(** A run that sleeps [delays] between its calls: one call more than
    delays. *)
Definition retry_trace (call : fetch_call) (delays : list Z) : list event :=
  (flat_map (fun d => [EvFetch call; EvSleep d]) delays ++ [EvFetch call])%list.

(** The delays of the [catch] block and of the 429 branch for the attempts
    [from], ..., [from + count - 1]. *)
Definition linear_delays (from count : Z) : list Z :=
  (fun attempt => 1000 * attempt) <$> seqZ from count.

Definition exponential_delays (from count : Z) : list Z :=
  (fun attempt => 2 ^ attempt * 1000) <$> seqZ from count.

(* ===================================================================== *)
(** ** The chat operations and the convenience calls                      *)
(* ===================================================================== *)

(** [{ ...request, stream: true }] for a request object. *)
Definition with_stream (request : gmap string value) : value :=
  VObj (<[ "stream" := VBool true ]> request).

(** The options [chatUnified], [streamUnified], [chatOpenAI], [streamOpenAI],
    [chatAnthropic] and [streamAnthropic] hand to [makeRequest]. *)
Definition chatUnified_options (request : value) : RequestInit :=
  post_json (normalizeUnifiedRequest request).

Definition streamUnified_options (request : gmap string value) : RequestInit :=
  post_json (normalizeUnifiedRequest (with_stream request)).

Definition chatOpenAI_options (request : value) : RequestInit :=
  post_json (normalizeOpenAIRequest request).

Definition streamOpenAI_options (request : gmap string value) : RequestInit :=
  post_json (normalizeOpenAIRequest (with_stream request)).

Definition anthropic_options (request : value) : RequestInit :=
  {| init_method := Some "POST";
     init_body := Some (JSONText request);
     init_headers := {[ "anthropic-version" := "2023-06-01" ]} |}.

Definition chatAnthropic_options (request : value) : RequestInit :=
  anthropic_options request.

Definition streamAnthropic_options (request : gmap string value) : RequestInit :=
  anthropic_options (with_stream request).

(** [base[0]]: the first element of an array, the property ["0"] of an
    object, the first character of a string; reading it from [null] or
    [undefined] throws. *)
Definition first_element (base : value) : result value :=
  match base with
  | VUndefined =>
      Throw (TypeError "Cannot read properties of undefined (reading '0')")
  | VNull => Throw (TypeError "Cannot read properties of null (reading '0')")
  | VArr elems => Ok (List.hd VUndefined elems)
  | VObj props => Ok (get props "0")
  | VStr (String c _) => Ok (VStr (String c EmptyString))
  | _ => Ok VUndefined
  end.

(** [x.choices[0]?.field?.content]; the names [choices], [delta], [message]
    and [content] are properties of no primitive and of no array, so
    [member] reads them as it reads the names of an error body. *)
Definition first_choice_content (x : value) (field : string) : result value :=
  choices ← member x "choices";
  first ← first_element choices;
  inner ← opt_member first field;
  opt_member inner "content".

(** The loop of [streamText] over the frames [streamUnified] yields: the
    texts it yields, and the exception that ends it, if any. *)
Fixpoint streamText_frames (frames : list value) : list value * option js_error :=
  match frames with
  | [] => ([], None)
  | chunk :: rest =>
      match first_choice_content chunk "delta" with
      | Throw e => ([], Some e)
      | Ok content =>
          let '(texts, failure) := streamText_frames rest in
          (if truthy content then content :: texts else texts, failure)
      end
  end.

(** How [streamText] ends: as the stream it reads does, or by an exception
    of its own. *)
Inductive text_end : Type :=
  | TextEnd (ending : stream_end)
  | TextThrew (e : js_error).

(** [streamText], from the chunks of the response body on. *)
Definition streamText (JSON_parse : string -> option value) (chunks : list string)
    : list value * text_end :=
  let '(frames, ending) := streamUnified JSON_parse chunks in
  let '(texts, failure) := streamText_frames frames in
  (texts, match failure with
          | Some e => TextThrew e
          | None => TextEnd ending
          end).

(** [response.choices[0]?.message?.content || ''], the value [complete] and
    [chat] return for a parsed response when [stream] is falsy. *)
Definition first_message_content (response : value) : result value :=
  content ← first_choice_content response "message";
  Ok (logical_or content (VStr "")).

(** A destructuring default applies when the property is [undefined]. *)
Definition or_default (arg dflt : value) : value :=
  if is_undefined arg then dflt else arg.

(** The options object of [complete] and [chat]; an absent option is
    [VUndefined]. *)
Record convenience_options : Type := {
  opt_model : value;
  opt_system : value;
  opt_temperature : value;
  opt_maxTokens : value;
  opt_stream : value;
  opt_reasoning_effort : value;
  opt_prompt_cache : value
}.

(** The request [complete] builds. *)
Definition complete_request (prompt : string) (options : convenience_options)
    : gmap string value :=
  {[ "model" := or_default (opt_model options) (VStr "gpt-5-2025-08-07");
     "messages" := VArr [VObj {[ "role" := VStr "user"; "content" := VStr prompt ]}];
     "system" := opt_system options;
     "temperature" := or_default (opt_temperature options) (VNum "0.7");
     "maxTokens" := or_default (opt_maxTokens options) (VNum "1000");
     "stream" := or_default (opt_stream options) (VBool false);
     "reasoningEffort" := opt_reasoning_effort options ]}.

(** The request [chat] builds; it has no [system] option. *)
Definition chat_request (messages : value) (options : convenience_options)
    : gmap string value :=
  {[ "model" := or_default (opt_model options) (VStr "claude-sonnet-4@20250514");
     "messages" := messages;
     "temperature" := or_default (opt_temperature options) (VNum "0.7");
     "maxTokens" := or_default (opt_maxTokens options) (VNum "1000");
     "stream" := or_default (opt_stream options) (VBool false);
     "reasoningEffort" := opt_reasoning_effort options ]}.

(** The body [complete] sends: through [streamText] and [streamUnified] when
    [stream] is truthy, through [chatUnified] otherwise. *)
Definition convenience_body (request : gmap string value) : value :=
  if truthy (get request "stream")
  then normalizeUnifiedRequest (with_stream request)
  else normalizeUnifiedRequest (VObj request).

(* ===================================================================== *)
(** ** Texts built from lines                                             *)
(* ===================================================================== *)

Definition carriage_return : ascii := "013"%char.

Definition cr : string := String carriage_return EmptyString.

(** Each line followed by the terminator. *)
Fixpoint terminated (terminator : string) (lines : list string) : string :=
  match lines with
  | [] => EmptyString
  | line :: rest => line ++ terminator ++ terminated terminator rest
  end.

(** The text ends with a slash. *)
Fixpoint ends_with_slash (s : string) : bool :=
  match s with
  | EmptyString => false
  | String c EmptyString => Ascii.eqb c "/"
  | String _ rest => ends_with_slash rest
  end.

(** The names a normaliser reads or writes. *)
Definition touched (s : surface) (k : string) : Prop :=
  exists alt wire, In (alt, wire) (renamed_fields s) /\ (k = alt \/ k = wire).

(** The loop from [attempt <= retries] on: it calls [fetch] at least once,
    never beyond the attempt numbered [retries], sleeps once between two
    calls, and ends on what the last call gave. *)
Definition ends_on (net : Z -> fetch_outcome) (retries attempt : Z)
    (outcome : completion) (trace : list event) : Prop :=
  (1 <= fetches trace)%nat
  /\ attempt + Z.of_nat (fetches trace) - 1 <= retries
  /\ S (length (sleeps trace)) = fetches trace
  /\ (exists c rest, trace = EvFetch c :: rest)
  /\ (forall ms, last trace <> Some (EvSleep ms))
  /\ match outcome with
     | Returned r =>
         net (attempt + Z.of_nat (fetches trace) - 1) = Resolves r /\ ok r = true
     | Threw e =>
         e = Some (failure_of (net (attempt + Z.of_nat (fetches trace) - 1)))
     end.

(** A server that fails twice with 503 and then answers 200. *)
Definition recovering_server : Z -> fetch_outcome :=
  fun attempt =>
    if attempt <? 3 then answer 503 None else answer 200 (Some (VObj ∅)).

(** A server that answers 429 twice and then 200. *)
Definition throttling_server : Z -> fetch_outcome :=
  fun attempt =>
    if attempt <? 3 then answer 429 None else answer 200 (Some (VObj ∅)).

Definition sample_call : fetch_call :=
  makeRequest_call sample_sdk "/api/v1/messages" (post_json (VObj ∅)) false.

Definition ok_response : response :=
  {| resp_status := 200; resp_json := Some (VObj ∅) |}.

Definition negative_config : SDKConfig :=
  {| config_apiKey := "sk-sample"; config_timeout := None; config_retries := Some (-1) |}.

Definition negative_sdk : KushRouterSDK :=
  {| baseURL := "https://api.kushrouter.com"; apiKey := "sk-sample";
     timeout := 30000; retries := -1 |}.

(** [makeRequest(endpoint)]: the default [options = {}]. *)
Definition no_options : RequestInit :=
  {| init_method := None; init_body := None; init_headers := ∅ |}.

(** A client allowed five attempts. *)
Definition patient_sdk : KushRouterSDK :=
  {| baseURL := "https://api.kushrouter.com"; apiKey := "sk-sample";
     timeout := 30000; retries := 5 |}.

Definition unavailable_server : Z -> fetch_outcome := always (answer 503 None).

(** A server whose first answer is 401 with the JSON value [null] as its
    body, and whose later answers are 200. *)
Definition null_body_server : Z -> fetch_outcome :=
  fun attempt =>
    if attempt =? 1 then answer 401 (Some VNull) else answer 200 (Some (VObj ∅)).

(** The error [makeRequest] builds when the body gives nothing: the default
    message of the status, the fixed code of the class. *)
Definition default_error (status : Z) : js_error :=
  if status =? 401 then
    mk_error ClassAuthenticationError "Invalid API key" (Some 401)
      (VStr "authentication_error") VUndefined
  else if status =? 402 then
    mk_error ClassInsufficientCreditsError "Insufficient credits" (Some 402)
      (VStr "insufficient_credits") VUndefined
  else if status =? 429 then
    mk_error ClassRateLimitError "Rate limit exceeded" (Some 429)
      (VStr "rate_limit_exceeded") VUndefined
  else
    mk_error ClassKushRouterError ("HTTP " ++ pretty status) (Some status)
      VUndefined VUndefined.

(** An error body in another shape: the message is not under [error]. *)
Definition flat_error_body : value :=
  VObj {[ "detail" := VStr "Not authenticated"; "message" := VStr "denied" ]}.

Definition slash : string := "/".

(** A configuration that asks for no retry and no timeout. *)
Definition zero_config : SDKConfig :=
  {| config_apiKey := "sk-sample"; config_timeout := Some 0; config_retries := Some 0 |}.

(** The blocks of a normaliser, run in order on the copy of the request. *)
Definition renamed (s : surface) (props : gmap string value) : gmap string value :=
  foldl (fun out '(alt, wire) => rename_field alt wire out) props (renamed_fields s).

(** [v.k] as a value, for reading a result: [undefined] when [v] is no
    object or has no such property. *)
Definition read (v : value) (k : string) : value :=
  match v with
  | VObj props => get props k
  | _ => VUndefined
  end.

Definition snake_only : gmap string value :=
  {[ "model" := VStr "gpt-4o"; "max_tokens" := VNum "256";
     "tool_choice" := VStr "auto" ]}.

(** The choices of a chunk and the content of the first one's delta, read
    without failing. *)
Definition choices_of (chunk : value) : list value :=
  match read chunk "choices" with
  | VArr elems => elems
  | _ => []
  end.

Definition delta_content (chunk : value) : value :=
  read (read (List.hd VUndefined (choices_of chunk)) "delta") "content".

(** A chunk of a chat stream: an object whose [choices] is an array. *)
Definition has_choices (chunk : value) : Prop :=
  exists (props : gmap string value) elems,
    chunk = VObj props /\ props !! "choices" = Some (VArr elems).

Definition no_convenience_options : convenience_options :=
  {| opt_model := VUndefined; opt_system := VUndefined;
     opt_temperature := VUndefined; opt_maxTokens := VUndefined;
     opt_stream := VUndefined; opt_reasoning_effort := VUndefined;
     opt_prompt_cache := VUndefined |}.

Definition streaming_options : convenience_options :=
  {| opt_model := VUndefined; opt_system := VStr "Be brief.";
     opt_temperature := VNum "0"; opt_maxTokens := VNum "64";
     opt_stream := VBool true; opt_reasoning_effort := VStr "low";
     opt_prompt_cache := VBool true |}.

(** What [complete] and [chat] put on the wire for their options: the token
    limit under its wire-form name only, the reasoning effort under its
    wire-form name, and nothing for the prompt cache. *)
Definition wire_summary (options : convenience_options) (body : value) : Prop :=
  read body "max_tokens" = or_default (opt_maxTokens options) (VNum "1000")
  /\ property body "maxTokens" = None
  /\ read body "reasoning_effort" = opt_reasoning_effort options
  /\ property body "prompt_cache" = None
  /\ property body "promptCache" = None.

(** Stream frames: two deltas with text, one with an empty delta, one
    without choices at all. *)
Definition delta_frame (text : value) : value :=
  VObj {[ "choices" := VArr [VObj {[ "delta" := VObj {[ "content" := text ]} ]}] ]}.

Definition usage_frame : value :=
  VObj {[ "usage" := VObj {[ "total_tokens" := VNum "12" ]} ]}.

(** The text of a stream of such frames. *)
Definition delta_line (text : string) : string :=
  "data: {" ++ quoted "choices" ++ ":[{" ++ quoted "delta" ++ ":{"
  ++ quoted "content" ++ ":" ++ quoted text ++ "}}]}".

Definition text_stream : list string :=
  [ delta_line "Hel" ++ nl ++ nl ++ delta_line "" ++ nl ++ nl;
    delta_line "lo" ++ nl ++ nl ++ "data: [DONE]" ++ nl ++ nl ].

Definition usage_props : gmap string value :=
  {[ "usage" := VObj {[ "total_tokens" := VNum "12" ]} ]}.

Definition usage_line : string :=
  "data: {" ++ quoted "usage" ++ ":{" ++ quoted "total_tokens" ++ ":12}}".

(** A stream whose second frame reports usage and has no choices. *)
Definition usage_stream : list string :=
  [ delta_line "Hel" ++ nl ++ nl ++ usage_line ++ nl;
    nl ++ delta_line "lo" ++ nl ++ nl ].

(** The lines of a small stream. *)
Definition sample_lines : list string :=
  [ frame_line "1"; ""; ": keep-alive"; frame_line "2"; ""; "data: [DONE]"; "" ].

(** A [data:] line without the space after the colon. *)
Definition unspaced_line : string := "data:" ++ payload_a "1".

Lemma attempt_loop_step fuel net call retries attempt lastError :
  attempt_loop (S fuel) net call retries attempt lastError =
    if attempt <=? retries then
      match try_block retries attempt (net attempt) with
      | TryReturn r => Some (Returned r, [EvFetch call])
      | TryContinue delay =>
          after [EvFetch call; EvSleep delay]
            (attempt_loop fuel net call retries (attempt + 1) lastError)
      | TryThrow error =>
          if instanceof_AuthenticationError error
             || instanceof_InsufficientCreditsError error
          then Some (Threw (Some error), [EvFetch call])
          else if attempt =? retries
          then Some (Threw (Some error), [EvFetch call])
          else
            after [EvFetch call; EvSleep (1000 * attempt)]
              (attempt_loop fuel net call retries (attempt + 1) (Some error))
      end
    else Some (Threw lastError, []).
Proof. reflexivity. Qed.

(* ===================================================================== *)
(** ** The retry loop                                                     *)
(* ===================================================================== *)

Lemma after_is_Some evs k : is_Some k -> is_Some (after evs k).
Proof. intros [[c tr] ->]. simpl. eauto. Qed.

(** The loop ends within [retries + 1 - attempt] iterations and the exit
    test: with that much fuel it never reaches the bound. *)
Lemma attempt_loop_total net call retries fuel :
  forall attempt lastError,
    (Z.to_nat (retries + 1 - attempt) < fuel)%nat ->
    is_Some (attempt_loop fuel net call retries attempt lastError).
Proof.
  induction fuel as [|fuel IH]; intros attempt lastError Hfuel; [lia|].
  simpl. destruct (attempt <=? retries) eqn:Hle; [|eauto].
  apply Z.leb_le in Hle.
  assert (Hnext : (Z.to_nat (retries + 1 - (attempt + 1)) < fuel)%nat) by lia.
  destruct (try_block retries attempt (net attempt)); [eauto| |].
  - apply after_is_Some, IH, Hnext.
  - destruct (_ || _); [eauto|]. destruct (attempt =? retries); [eauto|].
    apply after_is_Some, IH, Hnext.
Qed.

Lemma makeRequest_total sdk net endpoint options useBearer :
  is_Some (makeRequest sdk net endpoint options useBearer).
Proof. apply attempt_loop_total. lia. Qed.

Lemma ok_false_outside_2xx r :
  resp_status r < 200 \/ 299 < resp_status r -> ok r = false.
Proof. unfold ok. intros []; apply andb_false_iff; [left|right]; lia. Qed.

(** One iteration on a 429 answer. *)
Lemma try_block_rate_limited retries attempt o :
  rate_limited o ->
  try_block retries attempt o =
    if attempt <? retries then TryContinue (2 ^ attempt * 1000)
    else TryThrow (failure_of o).
Proof.
  intros (r & -> & Hs & _). unfold try_block, failure_of.
  rewrite ok_false_outside_2xx by lia. rewrite Hs. simpl.
  destruct (attempt <? retries); reflexivity.
Qed.

Lemma try_block_fatal retries attempt o :
  fatal o -> try_block retries attempt o = TryThrow (failure_of o).
Proof.
  intros (r & -> & Hs). unfold try_block, failure_of.
  rewrite ok_false_outside_2xx by lia.
  replace (resp_status r =? 429) with false by (symmetry; apply Z.eqb_neq; lia).
  reflexivity.
Qed.

Lemma try_block_generic retries attempt o :
  generic_failure o -> try_block retries attempt o = TryThrow (failure_of o).
Proof.
  destruct o as [r|name msg]; [|reflexivity].
  intros (Hok & _ & _ & H429). unfold try_block, failure_of. rewrite Hok.
  apply Z.eqb_neq in H429. rewrite H429. reflexivity.
Qed.

(** The constructor gives the sample client, with the default bounds. *)
Lemma new_KushRouterSDK_sample : new_KushRouterSDK sample_config = Some sample_sdk.
Proof. reflexivity. Qed.

(** *** Exceptions raised while an error object is built *)

Lemma bind_throws {A B} (r : result A) (k : A -> result B) :
  throws_only_TypeError r -> (forall a, throws_only_TypeError (k a)) ->
  throws_only_TypeError (r ≫= k).
Proof.
  intros Hr Hk e. destruct r as [a|e']; simpl.
  - apply Hk.
  - intros [= <-]. apply Hr. reflexivity.
Qed.

Lemma Ok_throws {A} (a : A) : throws_only_TypeError (Ok a).
Proof. intros e. discriminate. Qed.

Lemma ToString_throws v : throws_only_TypeError (ToString v).
Proof.
  revert v. fix IH 1. intros [ | |b|r|s|elems|props]; try apply Ok_throws.
  - simpl. induction elems as [|x rest IHrest]; [apply Ok_throws|].
    apply bind_throws.
    + destruct (is_nullish x); [apply Ok_throws | apply IH].
    + intros s. destruct rest; [apply Ok_throws|].
      apply bind_throws; [exact IHrest | intros; apply Ok_throws].
  - simpl. destruct (props !! "toString"); [|apply Ok_throws].
    intros e [= <-]. reflexivity.
Qed.

Lemma member_throws base key : throws_only_TypeError (member base key).
Proof. destruct base; try apply Ok_throws; intros e [= <-]; reflexivity. Qed.

Lemma error_field_throws errorData key :
  throws_only_TypeError (error_field errorData key).
Proof.
  apply bind_throws; [apply member_throws|]. intros error. unfold opt_member.
  destruct (is_nullish error); [apply Ok_throws | apply member_throws].
Qed.

Lemma KushRouterError_throws m s c d :
  throws_only_TypeError (KushRouterError m s c d).
Proof.
  apply bind_throws; [|intros; apply Ok_throws].
  destruct (is_undefined m); [apply Ok_throws | apply ToString_throws].
Qed.

Lemma KushRouterError_class m s c d e :
  KushRouterError m s c d = Ok e -> class e = ClassKushRouterError.
Proof.
  unfold KushRouterError.
  destruct (if is_undefined m then Ok "" else ToString m); simpl; [|discriminate].
  intros [= <-]. reflexivity.
Qed.

(** A status other than 401 and 402 never yields one of the two classes
    the [catch] block re-raises at once. *)
Lemma classify_not_fatal status errorData :
  status <> 401 -> status <> 402 ->
  instanceof_AuthenticationError (classify status errorData)
  || instanceof_InsufficientCreditsError (classify status errorData) = false.
Proof.
  intros H401 H402. unfold classify.
  apply Z.eqb_neq in H401, H402. rewrite H401, H402.
  assert (Hfield := error_field_throws errorData).
  unfold instanceof_AuthenticationError, instanceof_InsufficientCreditsError.
  destruct (status =? 429).
  - destruct (error_field errorData "message") as [m|e] eqn:Hm; simpl.
    + unfold RateLimitError.
      destruct (KushRouterError _ _ _ _) as [e|e] eqn:HK; simpl; [reflexivity|].
      rewrite (KushRouterError_throws _ _ _ _ _ HK). reflexivity.
    + rewrite (Hfield _ _ Hm). reflexivity.
  - destruct (error_field errorData "message") as [m|e] eqn:Hm; simpl.
    + destruct (error_field errorData "type") as [t|e] eqn:Ht; simpl.
      * destruct (KushRouterError _ _ _ _) as [e|e] eqn:HK; simpl.
        -- rewrite (KushRouterError_class _ _ _ _ _ HK). reflexivity.
        -- rewrite (KushRouterError_throws _ _ _ _ _ HK). reflexivity.
      * rewrite (Hfield _ _ Ht). reflexivity.
    + rewrite (Hfield _ _ Hm). reflexivity.
Qed.

Lemma failure_of_generic_not_fatal o :
  generic_failure o ->
  instanceof_AuthenticationError (failure_of o)
  || instanceof_InsufficientCreditsError (failure_of o) = false.
Proof.
  destruct o as [r|name msg]; [|reflexivity].
  intros (_ & H401 & H402 & _). apply classify_not_fatal; assumption.
Qed.

(** An error of class RateLimitError built by [classify] is the one the
    429 branch constructs. *)
Lemma rate_limited_error o :
  rate_limited o ->
  status (failure_of o) = Some 429
  /\ code (failure_of o) = VStr "rate_limit_exceeded".
Proof.
  intros (r & -> & Hs & Hclass). revert Hclass. unfold failure_of, classify.
  rewrite Hs. cbn [Z.eqb Pos.eqb].
  destruct (error_field (errorData_of r) "message") as [m|e] eqn:Hm; cbn.
  - unfold RateLimitError.
    destruct (KushRouterError _ _ _ _) as [e|e] eqn:HK; cbn.
    + revert HK. unfold KushRouterError.
      destruct (if is_undefined _ then _ else _); cbn; [|discriminate].
      intros [= <-] _. split; reflexivity.
    + rewrite (KushRouterError_throws _ _ _ _ _ HK). discriminate.
  - rewrite (error_field_throws _ _ _ Hm). discriminate.
Qed.

(** *** The three retry policies *)

(** C1: when every attempt is answered 429 and classified RateLimit, and
    [retries] is 3, [makeRequest] calls [fetch] three times, sleeps 2000 ms
    and then 4000 ms between the calls and nowhere else, and throws the
    error of the third attempt, a RateLimitError of status 429. *)
Theorem makeRequest_rate_limit_backoff sdk net endpoint options useBearer :
  retries sdk = 3 ->
  (forall attempt, rate_limited (net attempt)) ->
  makeRequest sdk net endpoint options useBearer =
    Some (Threw (Some (failure_of (net 3))),
          [EvFetch (makeRequest_call sdk endpoint options useBearer); EvSleep 2000;
           EvFetch (makeRequest_call sdk endpoint options useBearer); EvSleep 4000;
           EvFetch (makeRequest_call sdk endpoint options useBearer)])
  /\ class (failure_of (net 3)) = ClassRateLimitError
  /\ status (failure_of (net 3)) = Some 429.
Proof.
  intros Hretries Hnet.
  destruct (Hnet 3) as (r & _ & _ & Hclass).
  split; [|split; [exact Hclass | apply rate_limited_error, Hnet]].
  unfold makeRequest. rewrite Hretries.
  change (S (Z.to_nat 3)) with 4%nat.
  rewrite attempt_loop_step, try_block_rate_limited by apply Hnet.
  change (1 <=? 3) with true. change (1 <? 3) with true. cbv iota.
  change (1 + 1) with 2. change (2 ^ 1 * 1000) with 2000.
  rewrite attempt_loop_step, try_block_rate_limited by apply Hnet.
  change (2 <=? 3) with true. change (2 <? 3) with true. cbv iota.
  change (2 + 1) with 3. change (2 ^ 2 * 1000) with 4000.
  rewrite attempt_loop_step, try_block_rate_limited by apply Hnet.
  change (3 <=? 3) with true. change (3 <? 3) with false. cbv iota.
  unfold instanceof_AuthenticationError, instanceof_InsufficientCreditsError.
  rewrite Hclass. reflexivity.
Qed.

(** C2: when the first attempt is answered 401 or 402 and classified
    Authentication or InsufficientCredits, [makeRequest] calls [fetch] once,
    never sleeps, and throws that error, whatever [retries >= 1] is. *)
Theorem makeRequest_fatal_no_retry sdk net endpoint options useBearer :
  1 <= retries sdk ->
  fatal (net 1) ->
  makeRequest sdk net endpoint options useBearer =
    Some (Threw (Some (failure_of (net 1))),
          [EvFetch (makeRequest_call sdk endpoint options useBearer)]).
Proof.
  intros Hretries Hfatal. unfold makeRequest.
  rewrite attempt_loop_step, try_block_fatal by exact Hfatal.
  replace (1 <=? retries sdk) with true by (symmetry; apply Z.leb_le; lia).
  unfold instanceof_AuthenticationError, instanceof_InsufficientCreditsError.
  destruct Hfatal as (r & _ & [[_ ->] | [_ ->]]); reflexivity.
Qed.

(** C3: when every attempt fails with a Generic error (a status outside 2xx
    other than 401, 402 and 429, or a failure of the transport) and
    [retries] is 3, [makeRequest] calls [fetch] three times, sleeps 1000 ms
    and then 2000 ms between the calls, and throws the very error the third
    attempt raised. *)
Theorem makeRequest_generic_linear_backoff sdk net endpoint options useBearer :
  retries sdk = 3 ->
  (forall attempt, generic_failure (net attempt)) ->
  makeRequest sdk net endpoint options useBearer =
    Some (Threw (Some (failure_of (net 3))),
          [EvFetch (makeRequest_call sdk endpoint options useBearer); EvSleep 1000;
           EvFetch (makeRequest_call sdk endpoint options useBearer); EvSleep 2000;
           EvFetch (makeRequest_call sdk endpoint options useBearer)]).
Proof.
  intros Hretries Hnet. unfold makeRequest. rewrite Hretries.
  change (S (Z.to_nat 3)) with 4%nat.
  rewrite attempt_loop_step, try_block_generic, failure_of_generic_not_fatal
    by apply Hnet.
  change (1 <=? 3) with true. change (1 =? 3) with false. cbv iota.
  change (1 + 1) with 2. change (1000 * 1) with 1000.
  rewrite attempt_loop_step, try_block_generic, failure_of_generic_not_fatal
    by apply Hnet.
  change (2 <=? 3) with true. change (2 =? 3) with false. cbv iota.
  change (2 + 1) with 3. change (1000 * 2) with 2000.
  rewrite attempt_loop_step, try_block_generic, failure_of_generic_not_fatal
    by apply Hnet.
  reflexivity.
Qed.

Lemma makeRequest_rate_limit_backoff_witness :
  retries sample_sdk = 3
  /\ (forall attempt, rate_limited (rate_limited_server attempt))
  /\ makeRequest sample_sdk rate_limited_server "/api/v1/messages"
       (post_json (VObj ∅)) false =
     Some (Threw (Some (failure_of (rate_limited_server 3))),
           [EvFetch (makeRequest_call sample_sdk "/api/v1/messages"
                       (post_json (VObj ∅)) false); EvSleep 2000;
            EvFetch (makeRequest_call sample_sdk "/api/v1/messages"
                       (post_json (VObj ∅)) false); EvSleep 4000;
            EvFetch (makeRequest_call sample_sdk "/api/v1/messages"
                       (post_json (VObj ∅)) false)])
  /\ class (failure_of (rate_limited_server 3)) = ClassRateLimitError
  /\ status (failure_of (rate_limited_server 3)) = Some 429.
Proof.
  assert (H : forall attempt, rate_limited (rate_limited_server attempt)).
  { intros attempt. eexists. split; [reflexivity|]. split; reflexivity. }
  split; [reflexivity|]. split; [exact H|].
  apply (makeRequest_rate_limit_backoff sample_sdk rate_limited_server
           "/api/v1/messages" (post_json (VObj ∅)) false); [reflexivity | exact H].
Defined.

Lemma makeRequest_fatal_no_retry_witness :
  1 <= retries sample_sdk
  /\ fatal (unauthorized_server 1)
  /\ makeRequest sample_sdk unauthorized_server "/api/v1/messages"
       (post_json (VObj ∅)) false =
     Some (Threw (Some (failure_of (unauthorized_server 1))),
           [EvFetch (makeRequest_call sample_sdk "/api/v1/messages"
                       (post_json (VObj ∅)) false)]).
Proof.
  assert (H : fatal (unauthorized_server 1)).
  { eexists. split; [reflexivity|]. left. split; reflexivity. }
  split; [vm_compute; discriminate|]. split; [exact H|].
  apply (makeRequest_fatal_no_retry sample_sdk unauthorized_server
           "/api/v1/messages" (post_json (VObj ∅)) false);
    [vm_compute; discriminate | exact H].
Defined.

Lemma makeRequest_generic_linear_backoff_witness :
  retries sample_sdk = 3
  /\ (forall attempt, generic_failure (failing_server attempt))
  /\ makeRequest sample_sdk failing_server "/api/v1/messages"
       (post_json (VObj ∅)) false =
     Some (Threw (Some (failure_of (failing_server 3))),
           [EvFetch (makeRequest_call sample_sdk "/api/v1/messages"
                       (post_json (VObj ∅)) false); EvSleep 1000;
            EvFetch (makeRequest_call sample_sdk "/api/v1/messages"
                       (post_json (VObj ∅)) false); EvSleep 2000;
            EvFetch (makeRequest_call sample_sdk "/api/v1/messages"
                       (post_json (VObj ∅)) false)]).
Proof.
  assert (H : forall attempt, generic_failure (failing_server attempt)).
  { intros attempt. unfold failing_server.
    destruct (attempt =? 2); simpl; [exact I|].
    repeat split; discriminate. }
  split; [reflexivity|]. split; [exact H|].
  apply (makeRequest_generic_linear_backoff sample_sdk failing_server
           "/api/v1/messages" (post_json (VObj ∅)) false); [reflexivity | exact H].
Defined.

(* ===================================================================== *)
(** ** Error classification                                               *)
(* ===================================================================== *)

Lemma error_field_nested body key :
  is_nullish body = false -> error_field body key = Ok (nested body key).
Proof.
  destruct body as [ | |b|r|s|elems|props]; try discriminate; intros _;
    try reflexivity.
  unfold error_field, nested. simpl. unfold opt_member.
  destruct (get props "error"); reflexivity.
Qed.

Lemma truthy_defined v : truthy v = true -> is_undefined v = false.
Proof. destruct v; simpl; congruence. Qed.

(** What [classify] builds, for a body other than [null] whose nested
    message converts to text. *)
Lemma classify_cases status body text :
  is_nullish body = false ->
  ToString (nested body "message") = Ok text ->
  classify status body =
    if status =? 401 then
      mk_error ClassAuthenticationError
        (if is_undefined (nested body "message") then "Invalid API key" else text)
        (Some 401) (VStr "authentication_error") VUndefined
    else if status =? 402 then
      mk_error ClassInsufficientCreditsError
        (if is_undefined (nested body "message") then "Insufficient credits" else text)
        (Some 402) (VStr "insufficient_credits") (nested body "details")
    else if status =? 429 then
      mk_error ClassRateLimitError
        (if is_undefined (nested body "message") then "Rate limit exceeded" else text)
        (Some 429) (VStr "rate_limit_exceeded") VUndefined
    else
      mk_error ClassKushRouterError
        (if truthy (nested body "message") then text else "HTTP " ++ pretty status)
        (Some status) (nested body "type") VUndefined.
Proof.
  intros Hbody Htext. unfold classify.
  rewrite !error_field_nested by exact Hbody. simpl.
  unfold AuthenticationError, InsufficientCreditsError, RateLimitError,
    KushRouterError, param_default, logical_or.
  destruct (status =? 401); [|destruct (status =? 402); [|destruct (status =? 429)]].
  - destruct (is_undefined (nested body "message")) eqn:Hu; simpl;
      [reflexivity | rewrite Hu, Htext; reflexivity].
  - destruct (is_undefined (nested body "message")) eqn:Hu; simpl;
      [reflexivity | rewrite Hu, Htext; reflexivity].
  - destruct (is_undefined (nested body "message")) eqn:Hu; simpl;
      [reflexivity | rewrite Hu, Htext; reflexivity].
  - destruct (truthy (nested body "message")) eqn:Ht; simpl; [|reflexivity].
    rewrite (truthy_defined _ Ht), Htext. reflexivity.
Qed.

(** A 401 or 402 answer with such a body is classified Authentication or
    InsufficientCredits, and a 429 answer RateLimit. *)
Lemma fatal_of_status r text :
  resp_status r = 401 \/ resp_status r = 402 ->
  is_nullish (errorData_of r) = false ->
  ToString (nested (errorData_of r) "message") = Ok text ->
  fatal (Resolves r).
Proof.
  intros Hs Hbody Htext. exists r. split; [reflexivity|].
  unfold failure_of. rewrite (classify_cases _ _ _ Hbody Htext).
  destruct Hs as [Hs|Hs]; rewrite Hs; [left|right]; split; reflexivity.
Qed.

Lemma rate_limited_of_status r text :
  resp_status r = 429 ->
  is_nullish (errorData_of r) = false ->
  ToString (nested (errorData_of r) "message") = Ok text ->
  rate_limited (Resolves r).
Proof.
  intros Hs Hbody Htext. exists r. split; [reflexivity|]. split; [exact Hs|].
  unfold failure_of. rewrite (classify_cases _ _ _ Hbody Htext), Hs. reflexivity.
Qed.

(** C5 (amended): for a parsed error body other than [null] whose nested
    message converts to text, 401 gives an AuthenticationError, 402 an
    InsufficientCreditsError carrying the body's details, 429 a
    RateLimitError, each with the body's message when it is defined and its
    default message otherwise, and each with the fixed code of its class;
    any other status gives a KushRouterError whose message is the body's
    message when that is truthy and ["HTTP <status>"] otherwise, and only
    this last kind carries the error type of the body as its code. *)
Theorem classify_by_status status body text :
  is_nullish body = false ->
  ToString (nested body "message") = Ok text ->
  classify status body =
    if status =? 401 then
      mk_error ClassAuthenticationError
        (if is_undefined (nested body "message") then "Invalid API key" else text)
        (Some 401) (VStr "authentication_error") VUndefined
    else if status =? 402 then
      mk_error ClassInsufficientCreditsError
        (if is_undefined (nested body "message") then "Insufficient credits" else text)
        (Some 402) (VStr "insufficient_credits") (nested body "details")
    else if status =? 429 then
      mk_error ClassRateLimitError
        (if is_undefined (nested body "message") then "Rate limit exceeded" else text)
        (Some 429) (VStr "rate_limit_exceeded") VUndefined
    else
      mk_error ClassKushRouterError
        (if truthy (nested body "message") then text else "HTTP " ++ pretty status)
        (Some status) (nested body "type") VUndefined.
Proof. apply classify_cases. Qed.

Lemma classify_by_status_witness :
  is_nullish credits_body = false
  /\ ToString (nested credits_body "message") = Ok "Out of credits"
  /\ classify 402 credits_body =
       mk_error ClassInsufficientCreditsError "Out of credits" (Some 402)
         (VStr "insufficient_credits") (VStr "top up at /billing").
Proof.
  split; [reflexivity|]. split; [reflexivity|].
  exact (classify_by_status 402 credits_body "Out of credits" eq_refl eq_refl).
Defined.

(** C5 as stated fails: a 401 body that names its error type yields an error
    whose code is the fixed ["authentication_error"], not that type. *)
Lemma classify_401_drops_error_type :
  nested invalid_key_body "type" = VStr "invalid_api_key"
  /\ class (classify 401 invalid_key_body) = ClassAuthenticationError
  /\ code (classify 401 invalid_key_body) = VStr "authentication_error"
  /\ code (classify 401 invalid_key_body) <> nested invalid_key_body "type".
Proof.
  repeat split; try reflexivity.
  vm_compute. intros H. discriminate H.
Qed.

(** In the default branch an empty message is replaced like a missing one. *)
Lemma classify_generic_empty_message :
  message (classify 500 (error_body {[ "message" := VStr "" ]})) = "HTTP 500".
Proof. reflexivity. Qed.

(** A body that is the JSON value [null] makes the very read of
    [errorData.error] throw. *)
Lemma classify_null_body status :
  class (classify status VNull) = Foreign "TypeError".
Proof.
  unfold classify.
  destruct (status =? 401); [|destruct (status =? 402); [|destruct (status =? 429)]];
    reflexivity.
Qed.

(* ===================================================================== *)
(** ** Headers                                                            *)
(* ===================================================================== *)

Lemma after_inv evs k c tr :
  after evs k = Some (c, tr) ->
  exists tr', k = Some (c, tr') /\ tr = (evs ++ tr')%list.
Proof.
  destruct k as [[c' tr']|]; simpl; [|discriminate].
  intros [= -> <-]. eauto.
Qed.

(** Every call of [fetch] in a run of the loop is given the same request. *)
Lemma attempt_loop_calls net call retries fuel :
  forall attempt lastError outcome trace c,
    attempt_loop fuel net call retries attempt lastError = Some (outcome, trace) ->
    In (EvFetch c) trace -> c = call.
Proof.
  induction fuel as [|fuel IH]; intros attempt lastError outcome trace c;
    [discriminate|].
  rewrite attempt_loop_step.
  destruct (attempt <=? retries); [|intros [= _ <-] []].
  destruct (try_block retries attempt (net attempt)) as [r|delay|error].
  - intros [= _ <-] [[= ->]|[]]. reflexivity.
  - intros (tr' & Hrec & ->)%after_inv [[= ->]|[[=]|Hin]]; [reflexivity|].
    eapply IH; eassumption.
  - destruct (_ || _); [intros [= _ <-] [[= ->]|[]]; reflexivity|].
    destruct (attempt =? retries); [intros [= _ <-] [[= ->]|[]]; reflexivity|].
    intros (tr' & Hrec & ->)%after_inv [[= ->]|[[=]|Hin]]; [reflexivity|].
    eapply IH; eassumption.
Qed.

(** C6 (the code at a multipart upload): every request [files.upload] hands
    to [fetch] for a [FormData] content has the form as its body and the
    header [Content-Type: application/json]. *)
Theorem files_upload_form_data_content_type sdk net entries filename outcome trace c :
  files_upload sdk net (FormDataContent entries) filename = Some (outcome, trace) ->
  In (EvFetch c) trace ->
  call_body c = Some (Multipart entries)
  /\ call_headers c !! "Content-Type" = Some "application/json".
Proof.
  intros Hrun Hin. unfold files_upload, makeRequest in Hrun.
  rewrite (attempt_loop_calls _ _ _ _ _ _ _ _ _ Hrun Hin).
  split; reflexivity.
Qed.

Lemma files_upload_form_data_content_type_witness :
  files_upload sample_sdk accepting_server (FormDataContent sample_form) None =
    Some (Returned {| resp_status := 200; resp_json := Some (VObj ∅) |},
          [EvFetch (makeRequest_call sample_sdk "/api/v1/files"
                      (files_upload_options (FormDataContent sample_form) None) false)])
  /\ In (EvFetch (makeRequest_call sample_sdk "/api/v1/files"
                    (files_upload_options (FormDataContent sample_form) None) false))
        [EvFetch (makeRequest_call sample_sdk "/api/v1/files"
                    (files_upload_options (FormDataContent sample_form) None) false)]
  /\ call_body (makeRequest_call sample_sdk "/api/v1/files"
                  (files_upload_options (FormDataContent sample_form) None) false)
     = Some (Multipart sample_form)
  /\ call_headers (makeRequest_call sample_sdk "/api/v1/files"
                     (files_upload_options (FormDataContent sample_form) None) false)
       !! "Content-Type" = Some "application/json".
Proof.
  split; [reflexivity|]. split; [left; reflexivity|].
  apply (files_upload_form_data_content_type sample_sdk accepting_server
           sample_form None
           (Returned {| resp_status := 200; resp_json := Some (VObj ∅) |})
           [EvFetch (makeRequest_call sample_sdk "/api/v1/files"
                       (files_upload_options (FormDataContent sample_form) None) false)]);
    [reflexivity | left; reflexivity].
Defined.

(** A request whose options name no [Content-Type] is sent as JSON. *)
Lemma request_headers_default key useBearer (options_headers : gmap string string) :
  options_headers !! "Content-Type" = None ->
  request_headers key useBearer options_headers !! "Content-Type"
    = Some "application/json".
Proof.
  intros Hnone. unfold request_headers.
  rewrite lookup_union_r by exact Hnone.
  destruct useBearer; reflexivity.
Qed.

(* ===================================================================== *)
(** ** Request normalisation                                              *)
(* ===================================================================== *)

Lemma rename_field_other alt wire (out : gmap string value) k :
  k <> alt -> k <> wire -> rename_field alt wire out !! k = out !! k.
Proof.
  intros Halt Hwire. unfold rename_field.
  destruct (is_undefined (get out alt)); [reflexivity|].
  rewrite lookup_delete_ne by congruence. apply lookup_insert_ne. congruence.
Qed.

Lemma rename_field_alt alt wire (out : gmap string value) :
  is_undefined (get out alt) = false -> rename_field alt wire out !! alt = None.
Proof. intros H. unfold rename_field. rewrite H. apply lookup_delete_eq. Qed.

Lemma rename_field_wire alt wire (out : gmap string value) :
  alt <> wire -> is_undefined (get out alt) = false ->
  rename_field alt wire out !! wire
    = Some (nullish_coalesce (get out wire) (get out alt)).
Proof.
  intros Hne H. unfold rename_field. rewrite H.
  rewrite lookup_delete_ne by exact Hne. apply lookup_insert_eq.
Qed.

Ltac skip_renames := repeat (rewrite rename_field_other by discriminate).

Ltac renamed Ha Hdef :=
  unfold normalizeUnifiedRequest, normalizeOpenAIRequest, spread, property;
  cbv zeta; split;
  [ skip_renames; apply rename_field_alt; unfold get; skip_renames;
    rewrite Ha; exact Hdef
  | skip_renames; rewrite rename_field_wire;
    [ unfold nullish_coalesce, get; skip_renames; rewrite Ha; reflexivity
    | discriminate
    | unfold get; skip_renames; rewrite Ha; exact Hdef ] ].

(** C7 (amended): for a request object whose alternate-form key holds a
    value other than [undefined], each normaliser removes that key, keeps the
    wire-form value when it is neither [null] nor [undefined], and puts the
    alternate-form value under the wire-form key otherwise. *)
Theorem normalize_wire_form_precedence s (props : gmap string value) alt wire a :
  In (alt, wire) (renamed_fields s) ->
  props !! alt = Some a ->
  is_undefined a = false ->
  property (normalize s (VObj props)) alt = None
  /\ property (normalize s (VObj props)) wire
     = Some (if is_nullish (get props wire) then a else get props wire).
Proof.
  intros Hin Ha Hdef.
  destruct s; unfold renamed_fields, unified_fields, openai_fields in Hin;
    cbn [In] in Hin; unfold normalize;
    repeat (destruct Hin as [[= <- <-]|Hin]; [renamed Ha Hdef|]);
    destruct Hin.
Qed.

Lemma normalize_wire_form_precedence_witness :
  In ("maxTokens", "max_tokens") (renamed_fields Unified)
  /\ both_spellings !! "maxTokens" = Some (VNum "100")
  /\ is_undefined (VNum "100") = false
  /\ property (normalize Unified (VObj both_spellings)) "maxTokens" = None
  /\ property (normalize Unified (VObj both_spellings)) "max_tokens"
     = Some (if is_nullish (get both_spellings "max_tokens") then VNum "100"
             else get both_spellings "max_tokens").
Proof.
  split; [left; reflexivity|]. split; [reflexivity|]. split; [reflexivity|].
  apply (normalize_wire_form_precedence Unified both_spellings
           "maxTokens" "max_tokens" (VNum "100"));
    [left; reflexivity | reflexivity | reflexivity].
Defined.

(** An alternate-form key that holds [undefined] stays in the object. *)
Lemma normalize_keeps_undefined_alternate :
  property (normalizeUnifiedRequest
              (VObj {[ "max_tokens" := VNum "256"; "maxTokens" := VUndefined ]}))
    "maxTokens" = Some VUndefined.
Proof. vm_compute. reflexivity. Qed.

(** C7 as stated fails: a request that holds [max_tokens: null] next to
    [maxTokens: 100] leaves the normaliser with [max_tokens: 100]. *)
Lemma normalize_overwrites_null_wire_form :
  null_wire_form !! "max_tokens" = Some VNull
  /\ null_wire_form !! "maxTokens" = Some (VNum "100")
  /\ property (normalizeUnifiedRequest (VObj null_wire_form)) "max_tokens"
     = Some (VNum "100")
  /\ property (normalizeUnifiedRequest (VObj null_wire_form)) "max_tokens"
     <> null_wire_form !! "max_tokens".
Proof.
  repeat split; try reflexivity. vm_compute. intros H. discriminate H.
Qed.

(* ===================================================================== *)
(** ** Splitting text into lines                                          *)
(* ===================================================================== *)

Lemma append_cons c (s t : string) : String c s ++ t = String c (s ++ t).
Proof. reflexivity. Qed.

Lemma append_nil_r (s : string) : s ++ "" = s.
Proof.
  induction s as [|c s IH]; [reflexivity|]. rewrite append_cons, IH. reflexivity.
Qed.

Lemma append_assoc (s t u : string) : (s ++ t) ++ u = s ++ (t ++ u).
Proof.
  induction s as [|c s IH]; [reflexivity|]. rewrite !append_cons, IH. reflexivity.
Qed.

Lemma split_nonempty sep s : split sep s <> [].
Proof.
  destruct s as [|c s]; simpl; [discriminate|].
  destruct (Ascii.eqb c sep); [discriminate|].
  destruct (split sep s); discriminate.
Qed.

Lemma cons_head_nonempty c parts : cons_head c parts <> [].
Proof. destruct parts; discriminate. Qed.

Lemma removelast_cons_head c parts :
  parts <> [] ->
  removelast (cons_head c parts)
  = match removelast parts with
    | [] => []
    | first :: others => String c first :: others
    end
  /\ List.last (cons_head c parts) EmptyString
     = match removelast parts with
       | [] => String c (List.last parts EmptyString)
       | _ => List.last parts EmptyString
       end.
Proof.
  destruct parts as [|x [|y ys]]; [congruence| |]; intros _; split; reflexivity.
Qed.

(** Splitting a concatenation: the lines complete in [s] stay, and the
    rest of [s] is split together with [t]. *)
Lemma split_app sep s t :
  split sep (s ++ t)
  = (removelast (split sep s)
     ++ split sep (List.last (split sep s) EmptyString ++ t))%list.
Proof.
  induction s as [|c s IH]; [reflexivity|].
  rewrite append_cons. cbn [split]. destruct (Ascii.eqb c sep) eqn:Hc.
  - rewrite IH. pose proof (split_nonempty sep s) as Hne.
    destruct (split sep s) as [|x xs] eqn:Hs; [congruence|]. reflexivity.
  - rewrite IH. pose proof (split_nonempty sep s) as Hne.
    destruct (removelast_cons_head c (split sep s) Hne) as [-> ->].
    destruct (removelast (split sep s)) as [|x xs] eqn:Hr.
    + cbn [app]. rewrite append_cons. cbn [split]. rewrite Hc. reflexivity.
    + reflexivity.
Qed.

(** Every part of a split is free of the separator. *)
Lemma split_parts_free sep s :
  Forall (fun part => split sep part = [part]) (split sep s).
Proof.
  induction s as [|c s IH]; simpl; [repeat constructor|].
  destruct (Ascii.eqb c sep) eqn:Hc; [constructor; [reflexivity | exact IH]|].
  destruct (split sep s) as [|x xs]; simpl.
  - repeat constructor. simpl. rewrite Hc. reflexivity.
  - inversion IH as [|? ? Hx Hxs]; subst. constructor; [|exact Hxs].
    simpl. rewrite Hc, Hx. reflexivity.
Qed.

Lemma last_split_free s : newline_free (List.last (split newline s) EmptyString).
Proof.
  pose proof (split_parts_free newline s) as Hall.
  pose proof (split_nonempty newline s) as Hne.
  rewrite (app_removelast_last EmptyString Hne) in Hall.
  apply Forall_app in Hall as [_ Hlast]. inversion Hlast; subst. assumption.
Qed.

Lemma newline_free_empty : newline_free "".
Proof. reflexivity. Qed.

(** The complete lines of [s ++ t], in terms of those of [s]. *)
Lemma complete_lines_app s t :
  complete_lines (s ++ t)
  = (complete_lines s
     ++ complete_lines (List.last (split newline s) EmptyString ++ t))%list.
Proof.
  unfold complete_lines. rewrite split_app.
  apply removelast_app, split_nonempty.
Qed.

Lemma complete_lines_free s : newline_free s -> complete_lines s = [].
Proof. unfold newline_free, complete_lines. intros ->. reflexivity. Qed.

Lemma last_free s : newline_free s -> List.last (split newline s) EmptyString = s.
Proof. unfold newline_free. intros ->. reflexivity. Qed.

Lemma newline_free_cons c line :
  newline_free (String c line) -> Ascii.eqb c newline = false /\ newline_free line.
Proof.
  unfold newline_free. cbn [split]. pose proof (split_nonempty newline line) as Hne.
  destruct (Ascii.eqb c newline).
  - intros H. discriminate H.
  - destruct (split newline line) as [|x xs]; [congruence|].
    intros [= -> ->]. split; reflexivity.
Qed.

Lemma split_line line rest :
  newline_free line ->
  split newline (line ++ nl ++ rest) = line :: split newline rest.
Proof.
  induction line as [|c line IH]; intros Hfree; [reflexivity|].
  apply newline_free_cons in Hfree as [Hc Hfree].
  rewrite append_cons. cbn [split]. rewrite Hc, (IH Hfree). reflexivity.
Qed.

(** A line and the newline that ends it, followed by more text. *)
Lemma complete_lines_line line rest :
  newline_free line ->
  complete_lines (line ++ nl ++ rest) = line :: complete_lines rest.
Proof.
  intros Hfree. unfold complete_lines. rewrite (split_line _ _ Hfree).
  pose proof (split_nonempty newline rest).
  destruct (split newline rest); [congruence | reflexivity].
Qed.

Lemma newline_free_app s t :
  newline_free s -> newline_free t -> newline_free (s ++ t).
Proof.
  induction s as [|c s IH]; intros Hs Ht; [exact Ht|].
  apply newline_free_cons in Hs as [Hc Hs]. specialize (IH Hs Ht).
  unfold newline_free in *. rewrite append_cons. cbn [split].
  rewrite Hc, IH. reflexivity.
Qed.

(* ===================================================================== *)
(** ** The stream decoder                                                 *)
(* ===================================================================== *)

Lemma ends_lines_newline s : ends_lines (s ++ nl).
Proof.
  unfold ends_lines. rewrite split_app.
  rewrite (split_line _ "" (last_split_free s) : split newline (_ ++ nl) = _).
  cbn [split].
  change (?l ++ ?x :: [""])%list with (l ++ [x] ++ [""])%list.
  rewrite app_assoc. apply last_last.
Qed.

Lemma example_lines :
  complete_lines sse_example
  = [frame_line "1"; ""; frame_line "2"; ""; "data: [DONE]"; ""].
Proof. vm_compute. reflexivity. Qed.

Lemma example_frame_line n :
  n = "1" \/ n = "2" ->
  String.prefix "data: " (frame_line n) = true
  /\ trim (slice 6 (frame_line n)) = payload_a n
  /\ String.eqb (trim (slice 6 (frame_line n))) "[DONE]" = false.
Proof. intros [-> | ->]; vm_compute; repeat split; reflexivity. Qed.

Section DecoderFacts.

Variable JSON_parse : string -> option value.

Lemma process_lines_app l1 l2 :
  process_lines JSON_parse (l1 ++ l2)
  = if (process_lines JSON_parse l1).2 then process_lines JSON_parse l1
    else (((process_lines JSON_parse l1).1 ++ (process_lines JSON_parse l2).1)%list,
          (process_lines JSON_parse l2).2).
Proof.
  induction l1 as [|line l1 IH]; cbn [app process_lines].
  - simpl. destruct (process_lines JSON_parse l2); reflexivity.
  - destruct (String.prefix "data: " line); [|exact IH].
    destruct (String.eqb _ "[DONE]"); [reflexivity|].
    destruct (JSON_parse _); [|exact IH].
    rewrite IH.
    destruct (process_lines JSON_parse l1) as [f1 d1].
    destruct (process_lines JSON_parse l2) as [f2 d2]. simpl.
    destruct d1; reflexivity.
Qed.

(** The chunk boundaries do not matter: the loop processes the complete
    lines of the buffer followed by all the chunks. *)
Lemma read_loop_whole chunks :
  forall buffer, newline_free buffer ->
    read_loop JSON_parse chunks buffer
    = finish (process_lines JSON_parse (complete_lines (buffer ++ whole chunks))).
Proof.
  induction chunks as [|chunk more IH]; intros buffer Hfree.
  - cbn [whole read_loop]. rewrite append_nil_r, (complete_lines_free _ Hfree).
    reflexivity.
  - cbn [whole read_loop]. rewrite <- append_assoc, complete_lines_app.
    rewrite process_lines_app. fold (complete_lines (buffer ++ chunk)).
    rewrite (IH _ (last_split_free (buffer ++ chunk))).
    destruct (process_lines JSON_parse (complete_lines (buffer ++ chunk)))
      as [frames finished].
    destruct finished; reflexivity.
Qed.

Lemma stream_generators_agree chunks :
  streamOpenAI JSON_parse chunks = streamUnified JSON_parse chunks
  /\ streamAnthropic JSON_parse chunks = streamUnified JSON_parse chunks.
Proof. split; reflexivity. Qed.

Lemma streamUnified_whole chunks :
  streamUnified JSON_parse chunks
  = finish (process_lines JSON_parse (complete_lines (whole chunks))).
Proof. apply (read_loop_whole chunks ""), newline_free_empty. Qed.

Lemma process_lines_frame line rest v :
  String.prefix "data: " line = true ->
  String.eqb (trim (slice 6 line)) "[DONE]" = false ->
  JSON_parse (trim (slice 6 line)) = Some v ->
  process_lines JSON_parse (line :: rest)
  = (v :: (process_lines JSON_parse rest).1, (process_lines JSON_parse rest).2).
Proof.
  intros Hp Hd Hv. cbn [process_lines]. rewrite Hp, Hd, Hv.
  destruct (process_lines JSON_parse rest); reflexivity.
Qed.

Lemma process_lines_other line rest :
  String.prefix "data: " line = false ->
  process_lines JSON_parse (line :: rest) = process_lines JSON_parse rest.
Proof. intros Hp. cbn [process_lines]. rewrite Hp. reflexivity. Qed.

Lemma process_lines_malformed line rest :
  String.eqb (trim (slice 6 line)) "[DONE]" = false ->
  JSON_parse (trim (slice 6 line)) = None ->
  process_lines JSON_parse (line :: rest) = process_lines JSON_parse rest.
Proof.
  intros Hd Hv. cbn [process_lines]. rewrite Hd, Hv.
  destruct (String.prefix "data: " line); reflexivity.
Qed.

Lemma process_lines_done line rest :
  is_done_line line = true ->
  process_lines JSON_parse (line :: rest) = ([], true).
Proof.
  unfold is_done_line. intros [Hp Hd]%andb_true_iff.
  cbn [process_lines]. rewrite Hp, Hd. reflexivity.
Qed.

(** Without a [[DONE]] line the loop yields the frame of every line that
    has one, in order, and does not return. *)
Lemma process_lines_no_done lines :
  Forall (fun line => is_done_line line = false) lines ->
  process_lines JSON_parse lines = (omap (frame_of_line JSON_parse) lines, false).
Proof.
  induction 1 as [|line lines Hline _ IH]; [reflexivity|].
  cbn [process_lines omap list_omap]. unfold frame_of_line, is_done_line in *.
  destruct (String.prefix "data: " line); [|exact IH]. cbn [andb] in Hline.
  rewrite Hline, IH. destruct (JSON_parse _); reflexivity.
Qed.

(** C4: the example text, cut into two chunks at any place, decodes to the
    two frames [{a:1}] and [{a:2}], in that order, and the generator returns
    at the [[DONE]] line, which it does not yield.  The parser is only asked
    to read the two payloads as [JSON.parse] does. *)
Theorem streamUnified_example_any_split first second :
  first ++ second = sse_example ->
  JSON_parse (payload_a "1") = Some (frame_a "1") ->
  JSON_parse (payload_a "2") = Some (frame_a "2") ->
  streamUnified JSON_parse [first; second] = ([frame_a "1"; frame_a "2"], SawDone).
Proof.
  intros Hsplit H1 H2. rewrite streamUnified_whole. cbn [whole].
  rewrite append_nil_r, Hsplit, example_lines.
  destruct (example_frame_line "1" (or_introl eq_refl)) as (Hp1 & Ht1 & Hd1).
  destruct (example_frame_line "2" (or_intror eq_refl)) as (Hp2 & Ht2 & Hd2).
  rewrite <- Ht1 in H1. rewrite <- Ht2 in H2.
  rewrite (process_lines_frame _ _ _ Hp1 Hd1 H1).
  rewrite process_lines_other by reflexivity.
  rewrite (process_lines_frame _ _ _ Hp2 Hd2 H2).
  rewrite process_lines_other by reflexivity.
  rewrite process_lines_done by (vm_compute; reflexivity).
  reflexivity.
Qed.

(** C8: a complete line that begins with ["data: "] and whose payload is
    neither [[DONE]] nor text that [JSON.parse] accepts leaves no trace: the
    generator yields and ends exactly as it does on the input without that
    line, however the two inputs are cut into chunks. *)
Theorem streamUnified_skips_malformed_line chunks chunks' before line rest :
  whole chunks = before ++ line ++ nl ++ rest ->
  whole chunks' = before ++ rest ->
  ends_lines before ->
  newline_free line ->
  String.prefix "data: " line = true ->
  trim (slice 6 line) <> "[DONE]" ->
  JSON_parse (trim (slice 6 line)) = None ->
  streamUnified JSON_parse chunks = streamUnified JSON_parse chunks'.
Proof.
  intros Hin Hin' Hbefore Hfree _ Hdone Hparse.
  rewrite !streamUnified_whole, Hin, Hin'.
  rewrite (complete_lines_app before (line ++ nl ++ rest)).
  rewrite (complete_lines_app before rest).
  unfold ends_lines in Hbefore. rewrite Hbefore.
  change ("" ++ ?s) with s.
  rewrite (complete_lines_line _ _ Hfree), !process_lines_app.
  rewrite process_lines_malformed; [reflexivity | | exact Hparse].
  apply String.eqb_neq, Hdone.
Qed.

(** C9: when no complete line of the input is a [[DONE]] line, the generator
    yields the frame of every complete line that has one, in order, and ends
    because the reader is exhausted. *)
Theorem streamUnified_without_done chunks :
  Forall (fun line => is_done_line line = false) (complete_lines (whole chunks)) ->
  streamUnified JSON_parse chunks
  = (omap (frame_of_line JSON_parse) (complete_lines (whole chunks)), SourceExhausted).
Proof.
  intros Hnone. rewrite streamUnified_whole, (process_lines_no_done _ Hnone).
  reflexivity.
Qed.

(** C10: what follows the last newline of the input is never processed: the
    generator yields and ends exactly as on the input cut before it. *)
Theorem streamUnified_drops_residual chunks body residual :
  whole chunks = body ++ residual ->
  newline_free residual ->
  streamUnified JSON_parse chunks = streamUnified JSON_parse [body].
Proof.
  intros Hin Hfree. rewrite !streamUnified_whole, Hin. cbn [whole].
  rewrite append_nil_r, (complete_lines_app body residual).
  rewrite (complete_lines_free (_ ++ residual)), app_nil_r; [reflexivity|].
  apply newline_free_app; [apply last_split_free | exact Hfree].
Qed.

End DecoderFacts.

Lemma streamUnified_example_any_split_witness :
  example_first ++ example_second = sse_example
  /\ Fragment.parse_json (payload_a "1") = Some (frame_a "1")
  /\ Fragment.parse_json (payload_a "2") = Some (frame_a "2")
  /\ streamUnified Fragment.parse_json [example_first; example_second]
     = ([frame_a "1"; frame_a "2"], SawDone).
Proof.
  assert (Hsplit : example_first ++ example_second = sse_example)
    by (vm_compute; reflexivity).
  assert (H1 : Fragment.parse_json (payload_a "1") = Some (frame_a "1"))
    by (vm_compute; reflexivity).
  assert (H2 : Fragment.parse_json (payload_a "2") = Some (frame_a "2"))
    by (vm_compute; reflexivity).
  split; [exact Hsplit|]. split; [exact H1|]. split; [exact H2|].
  exact (streamUnified_example_any_split Fragment.parse_json
           example_first example_second Hsplit H1 H2).
Defined.

Lemma streamUnified_skips_malformed_line_witness :
  whole malformed_chunks
    = (frame_line "1" ++ nl ++ nl) ++ malformed_line ++ nl
      ++ (nl ++ frame_line "2" ++ nl ++ nl)
  /\ whole wellformed_chunks
     = (frame_line "1" ++ nl ++ nl) ++ (nl ++ frame_line "2" ++ nl ++ nl)
  /\ ends_lines (frame_line "1" ++ nl ++ nl)
  /\ newline_free malformed_line
  /\ String.prefix "data: " malformed_line = true
  /\ trim (slice 6 malformed_line) <> "[DONE]"
  /\ Fragment.parse_json (trim (slice 6 malformed_line)) = None
  /\ streamUnified Fragment.parse_json malformed_chunks
     = streamUnified Fragment.parse_json wellformed_chunks.
Proof.
  assert (Hin : whole malformed_chunks
                = (frame_line "1" ++ nl ++ nl) ++ malformed_line ++ nl
                  ++ (nl ++ frame_line "2" ++ nl ++ nl))
    by (vm_compute; reflexivity).
  assert (Hin' : whole wellformed_chunks
                 = (frame_line "1" ++ nl ++ nl) ++ (nl ++ frame_line "2" ++ nl ++ nl))
    by (vm_compute; reflexivity).
  assert (Hends : ends_lines (frame_line "1" ++ nl ++ nl))
    by (vm_compute; reflexivity).
  assert (Hfree : newline_free malformed_line) by (vm_compute; reflexivity).
  assert (Hprefix : String.prefix "data: " malformed_line = true)
    by (vm_compute; reflexivity).
  assert (Hdone : trim (slice 6 malformed_line) <> "[DONE]")
    by (vm_compute; intros H; discriminate H).
  assert (Hparse : Fragment.parse_json (trim (slice 6 malformed_line)) = None)
    by (vm_compute; reflexivity).
  repeat (split; [assumption|]).
  exact (streamUnified_skips_malformed_line Fragment.parse_json
           malformed_chunks wellformed_chunks _ _ _
           Hin Hin' Hends Hfree Hprefix Hdone Hparse).
Defined.

Lemma streamUnified_without_done_witness :
  Forall (fun line => is_done_line line = false)
    (complete_lines (whole unfinished_chunks))
  /\ streamUnified Fragment.parse_json unfinished_chunks
     = (omap (frame_of_line Fragment.parse_json)
          (complete_lines (whole unfinished_chunks)), SourceExhausted).
Proof.
  assert (Hnone : Forall (fun line => is_done_line line = false)
                    (complete_lines (whole unfinished_chunks)))
    by (vm_compute; repeat constructor).
  split; [exact Hnone|].
  exact (streamUnified_without_done Fragment.parse_json unfinished_chunks Hnone).
Defined.

Lemma streamUnified_drops_residual_witness :
  whole unfinished_chunks = (frame_line "1" ++ nl ++ nl) ++ frame_line "2"
  /\ newline_free (frame_line "2")
  /\ streamUnified Fragment.parse_json unfinished_chunks
     = streamUnified Fragment.parse_json [frame_line "1" ++ nl ++ nl].
Proof.
  assert (Hin : whole unfinished_chunks
                = (frame_line "1" ++ nl ++ nl) ++ frame_line "2")
    by (vm_compute; reflexivity).
  assert (Hfree : newline_free (frame_line "2")) by (vm_compute; reflexivity).
  split; [exact Hin|]. split; [exact Hfree|].
  exact (streamUnified_drops_residual Fragment.parse_json unfinished_chunks
           _ _ Hin Hfree).
Defined.

(** The frame without a newline is well formed, and is not yielded. *)
Example unfinished_chunks_decoded :
  Fragment.parse_json (payload_a "2") = Some (frame_a "2")
  /\ streamUnified Fragment.parse_json unfinished_chunks
     = ([frame_a "1"], SourceExhausted).
Proof. split; vm_compute; reflexivity. Qed.

(** The malformed line yields nothing; the frames around it are yielded. *)
Example malformed_chunks_decoded :
  streamUnified Fragment.parse_json malformed_chunks
  = ([frame_a "1"; frame_a "2"], SourceExhausted).
Proof. vm_compute. reflexivity. Qed.

(* ===================================================================== *)
(** ** The retry loop on any server                                       *)
(* ===================================================================== *)

Lemma after_nil k : after [] k = k.
Proof. destruct k as [[c tr]|]; reflexivity. Qed.

Lemma after_app evs evs' k : after (evs ++ evs')%list k = after evs (after evs' k).
Proof. destruct k as [[c tr]|]; simpl; [rewrite <- app_assoc|]; reflexivity. Qed.

Lemma fetches_app tr tr' : fetches (tr ++ tr')%list = (fetches tr + fetches tr')%nat.
Proof.
  induction tr as [|[c|ms] tr IH]; simpl; [reflexivity| |]; rewrite IH; reflexivity.
Qed.

Lemma sleeps_app tr tr' : sleeps (tr ++ tr')%list = (sleeps tr ++ sleeps tr')%list.
Proof.
  induction tr as [|[c|ms] tr IH]; simpl; [reflexivity| |]; rewrite IH; reflexivity.
Qed.

Lemma fetches_retry_trace call delays :
  fetches (retry_trace call delays) = S (length delays).
Proof.
  unfold retry_trace. rewrite fetches_app. simpl.
  induction delays as [|d delays IH]; simpl; [reflexivity|].
  rewrite <- IH. lia.
Qed.

Lemma sleeps_retry_trace call delays : sleeps (retry_trace call delays) = delays.
Proof.
  unfold retry_trace. rewrite sleeps_app. simpl. rewrite app_nil_r.
  induction delays as [|d delays IH]; simpl; [reflexivity|].
  rewrite IH. reflexivity.
Qed.

(** What each way out of the [try] block says about the attempt. *)
Lemma try_block_TryThrow retries attempt o e :
  try_block retries attempt o = TryThrow e -> e = failure_of o.
Proof.
  destruct o as [r|name msg]; simpl; [|intros [= <-]; reflexivity].
  destruct (ok r); [discriminate|].
  destruct (_ && _); [discriminate|]. intros [= <-]. reflexivity.
Qed.

Lemma try_block_TryReturn retries attempt o r :
  try_block retries attempt o = TryReturn r -> o = Resolves r /\ ok r = true.
Proof.
  destruct o as [r'|name msg]; simpl; [|discriminate].
  destruct (ok r') eqn:Hok; [intros [= <-]; split; [reflexivity | exact Hok]|].
  destruct (_ && _); discriminate.
Qed.

Lemma try_block_TryContinue retries attempt o delay :
  try_block retries attempt o = TryContinue delay ->
  attempt < retries /\ delay = 2 ^ attempt * 1000.
Proof.
  destruct o as [r|name msg]; simpl; [|discriminate].
  destruct (ok r); [discriminate|].
  destruct (resp_status r =? 429); simpl; [|discriminate].
  destruct (attempt <? retries) eqn:Hlt; [|discriminate].
  intros [= <-]. split; [apply Z.ltb_lt, Hlt | reflexivity].
Qed.

Lemma ends_on_one_call net call retries attempt outcome :
  attempt <= retries ->
  match outcome with
  | Returned r => net attempt = Resolves r /\ ok r = true
  | Threw e => e = Some (failure_of (net attempt))
  end ->
  ends_on net retries attempt outcome [EvFetch call].
Proof.
  intros Hle Hout. unfold ends_on. cbn [fetches sleeps length].
  replace (attempt + Z.of_nat 1 - 1) with attempt by lia.
  repeat split; [lia | lia | eauto | discriminate | exact Hout].
Qed.

Lemma ends_on_retry net call retries attempt delay outcome trace :
  ends_on net retries (attempt + 1) outcome trace ->
  ends_on net retries attempt outcome (EvFetch call :: EvSleep delay :: trace).
Proof.
  unfold ends_on. intros (H1 & H2 & H3 & (c & rest & ->) & H5 & H6).
  cbn [fetches sleeps length] in *.
  replace (attempt + Z.of_nat (S (S (fetches rest))) - 1)
    with (attempt + 1 + Z.of_nat (S (fetches rest)) - 1) by lia.
  repeat split; [lia | lia | lia | eauto | exact H5 | exact H6].
Qed.

Lemma attempt_loop_outcome net call retries fuel :
  forall attempt lastError outcome trace,
    attempt_loop fuel net call retries attempt lastError = Some (outcome, trace) ->
    attempt <= retries ->
    ends_on net retries attempt outcome trace.
Proof.
  induction fuel as [|fuel IH]; intros attempt lastError outcome trace;
    [discriminate|].
  rewrite attempt_loop_step. intros Hrun Hle.
  replace (attempt <=? retries) with true in Hrun by (symmetry; apply Z.leb_le, Hle).
  destruct (try_block retries attempt (net attempt)) as [r|delay|error] eqn:Htry.
  - injection Hrun as <- <-. apply try_block_TryReturn in Htry.
    apply ends_on_one_call; assumption.
  - apply try_block_TryContinue in Htry as [Hlt _].
    apply after_inv in Hrun as (tr' & Hrec & ->).
    apply ends_on_retry, (IH _ _ _ _ Hrec). lia.
  - apply try_block_TryThrow in Htry as ->.
    destruct (_ || _);
      [injection Hrun as <- <-; apply ends_on_one_call; [assumption | reflexivity]|].
    destruct (attempt =? retries) eqn:Heq;
      [injection Hrun as <- <-; apply ends_on_one_call; [assumption | reflexivity]|].
    apply Z.eqb_neq in Heq.
    apply after_inv in Hrun as (tr' & Hrec & ->).
    apply ends_on_retry, (IH _ _ _ _ Hrec). lia.
Qed.

Lemma makeRequest_no_iteration sdk net endpoint options useBearer :
  retries sdk < 1 ->
  makeRequest sdk net endpoint options useBearer = Some (Threw None, []).
Proof.
  intros Hlt. unfold makeRequest. rewrite attempt_loop_step.
  replace (1 <=? retries sdk) with false by (symmetry; apply Z.leb_gt, Hlt).
  reflexivity.
Qed.

(** X1: a response [makeRequest] returns is a 2xx response, and it is the
    answer to the last call of [fetch] in the trace. *)
Theorem makeRequest_returns_ok_response sdk net endpoint options useBearer r trace :
  makeRequest sdk net endpoint options useBearer = Some (Returned r, trace) ->
  ok r = true /\ net (Z.of_nat (fetches trace)) = Resolves r.
Proof.
  intros Hrun. destruct (Z.lt_ge_cases (retries sdk) 1) as [Hlt|Hge].
  - rewrite (makeRequest_no_iteration _ _ _ _ _ Hlt) in Hrun. discriminate.
  - unfold makeRequest in Hrun.
    destruct (attempt_loop_outcome _ _ _ _ _ _ _ _ Hrun Hge)
      as (_ & _ & _ & _ & _ & Hnet & Hok).
    replace (1 + Z.of_nat (fetches trace) - 1) with (Z.of_nat (fetches trace))
      in Hnet by lia.
    split; assumption.
Qed.



Lemma makeRequest_returns_ok_response_witness :
  makeRequest sample_sdk recovering_server "/api/v1/messages" (post_json (VObj ∅)) false
    = Some (Returned ok_response, retry_trace sample_call [1000; 2000])
  /\ ok ok_response = true
  /\ recovering_server (Z.of_nat (fetches (retry_trace sample_call [1000; 2000])))
     = Resolves ok_response.
Proof.
  split; [vm_compute; reflexivity|].
  apply (makeRequest_returns_ok_response sample_sdk recovering_server
           "/api/v1/messages" (post_json (VObj ∅)) false).
  vm_compute. reflexivity.
Defined.



(** X4: a client constructed with a negative [retries] option never calls
    [fetch]: every request throws [undefined] at once. *)
Theorem negative_retries_never_fetch config sdk n net endpoint options useBearer :
  new_KushRouterSDK config = Some sdk ->
  config_retries config = Some n ->
  n < 0 ->
  makeRequest sdk net endpoint options useBearer = Some (Threw None, []).
Proof.
  unfold new_KushRouterSDK. destruct (String.eqb _ ""); [discriminate|].
  intros [= <-] Hn Hneg. apply makeRequest_no_iteration. simpl. rewrite Hn.
  destruct n; simpl; lia.
Qed.

Lemma negative_retries_never_fetch_witness :
  new_KushRouterSDK negative_config = Some negative_sdk
  /\ config_retries negative_config = Some (-1)
  /\ -1 < 0
  /\ makeRequest negative_sdk accepting_server "/api/v1/usage" no_options false
     = Some (Threw None, []).
Proof.
  split; [reflexivity|]. split; [reflexivity|]. split; [lia|].
  apply (negative_retries_never_fetch negative_config negative_sdk (-1));
    [reflexivity | reflexivity | lia].
Defined.

(** *** Runs of failures *)

Lemma linear_delays_cons from count :
  0 < count ->
  linear_delays from count = 1000 * from :: linear_delays (from + 1) (count - 1).
Proof. intros H. unfold linear_delays. rewrite seqZ_cons by exact H. reflexivity. Qed.

Lemma exponential_delays_cons from count :
  0 < count ->
  exponential_delays from count
  = 2 ^ from * 1000 :: exponential_delays (from + 1) (count - 1).
Proof.
  intros H. unfold exponential_delays. rewrite seqZ_cons by exact H. reflexivity.
Qed.

Lemma attempt_loop_success net call retries fuel attempt lastError r :
  attempt <= retries -> net attempt = Resolves r -> ok r = true ->
  attempt_loop (S fuel) net call retries attempt lastError
  = Some (Returned r, [EvFetch call]).
Proof.
  intros Hle Hnet Hok. rewrite attempt_loop_step, Hnet.
  replace (attempt <=? retries) with true by (symmetry; apply Z.leb_le, Hle).
  simpl. rewrite Hok. reflexivity.
Qed.

Lemma attempt_loop_last_generic net call retries fuel lastError :
  generic_failure (net retries) ->
  attempt_loop (S fuel) net call retries retries lastError
  = Some (Threw (Some (failure_of (net retries))), [EvFetch call]).
Proof.
  intros Hgen.
  rewrite attempt_loop_step, (try_block_generic _ _ _ Hgen),
    (failure_of_generic_not_fatal _ Hgen), Z.leb_refl, Z.eqb_refl.
  reflexivity.
Qed.

Lemma attempt_loop_last_rate_limited net call retries fuel lastError :
  rate_limited (net retries) ->
  attempt_loop (S fuel) net call retries retries lastError
  = Some (Threw (Some (failure_of (net retries))), [EvFetch call]).
Proof.
  intros Hrate.
  rewrite attempt_loop_step, (try_block_rate_limited _ _ _ Hrate),
    Z.leb_refl, Z.ltb_irrefl, Z.eqb_refl.
  destruct Hrate as (r & _ & _ & Hclass).
  unfold instanceof_AuthenticationError, instanceof_InsufficientCreditsError.
  rewrite Hclass. reflexivity.
Qed.

(** [count] Generic failures in a row, with attempts to spare: the loop
    sleeps [1000 * attempt] after each and goes on. *)
Lemma attempt_loop_generic_prefix net call retries (count : nat) :
  forall fuel attempt lastError,
    (forall a, attempt <= a < attempt + Z.of_nat count -> generic_failure (net a)) ->
    attempt + Z.of_nat count <= retries ->
    exists lastError',
      attempt_loop (count + fuel) net call retries attempt lastError
      = after (flat_map (fun d => [EvFetch call; EvSleep d])
                 (linear_delays attempt (Z.of_nat count)))
          (attempt_loop fuel net call retries (attempt + Z.of_nat count) lastError').
Proof.
  induction count as [|count IH]; intros fuel attempt lastError Hgen Hle.
  - exists lastError. unfold linear_delays. rewrite seqZ_nil by lia.
    cbn [fmap list_fmap flat_map]. rewrite after_nil.
    replace (attempt + Z.of_nat 0) with attempt by lia. reflexivity.
  - assert (Hhere : generic_failure (net attempt)) by (apply Hgen; lia).
    destruct (IH fuel (attempt + 1) (Some (failure_of (net attempt))))
      as [lastError' Hrec]; [intros a Ha; apply Hgen; lia | lia |].
    exists lastError'. cbn [Nat.add].
    rewrite attempt_loop_step, (try_block_generic _ _ _ Hhere),
      (failure_of_generic_not_fatal _ Hhere).
    replace (attempt <=? retries) with true by (symmetry; apply Z.leb_le; lia).
    replace (attempt =? retries) with false by (symmetry; apply Z.eqb_neq; lia).
    rewrite Hrec, (linear_delays_cons attempt (Z.of_nat (S count))) by lia.
    cbn [flat_map].
    rewrite (after_app [EvFetch call; EvSleep (1000 * attempt)]).
    replace (Z.of_nat (S count) - 1) with (Z.of_nat count) by lia.
    replace (attempt + 1 + Z.of_nat count) with (attempt + Z.of_nat (S count)) by lia.
    reflexivity.
Qed.

(** [count] answers 429 in a row, with attempts to spare: the loop sleeps
    [2 ^ attempt * 1000] after each and goes on. *)
Lemma attempt_loop_rate_limited_prefix net call retries (count : nat) :
  forall fuel attempt lastError,
    (forall a, attempt <= a < attempt + Z.of_nat count -> rate_limited (net a)) ->
    attempt + Z.of_nat count <= retries ->
    attempt_loop (count + fuel) net call retries attempt lastError
    = after (flat_map (fun d => [EvFetch call; EvSleep d])
               (exponential_delays attempt (Z.of_nat count)))
        (attempt_loop fuel net call retries (attempt + Z.of_nat count) lastError).
Proof.
  induction count as [|count IH]; intros fuel attempt lastError Hrate Hle.
  - unfold exponential_delays. rewrite seqZ_nil by lia.
    cbn [fmap list_fmap flat_map]. rewrite after_nil.
    replace (attempt + Z.of_nat 0) with attempt by lia. reflexivity.
  - assert (Hhere : rate_limited (net attempt)) by (apply Hrate; lia).
    cbn [Nat.add].
    rewrite attempt_loop_step, (try_block_rate_limited _ _ _ Hhere).
    replace (attempt <=? retries) with true by (symmetry; apply Z.leb_le; lia).
    replace (attempt <? retries) with true by (symmetry; apply Z.ltb_lt; lia).
    rewrite IH by (try lia; intros a Ha; apply Hrate; lia).
    rewrite (exponential_delays_cons attempt (Z.of_nat (S count))) by lia.
    cbn [flat_map].
    rewrite (after_app [EvFetch call; EvSleep (2 ^ attempt * 1000)]).
    replace (Z.of_nat (S count) - 1) with (Z.of_nat count) by lia.
    replace (attempt + 1 + Z.of_nat count) with (attempt + Z.of_nat (S count)) by lia.
    reflexivity.
Qed.

Lemma after_Some evs c tr : after evs (Some (c, tr)) = Some (c, (evs ++ tr)%list).
Proof. reflexivity. Qed.

(** The sum of the delays. *)
Lemma sum_linear_delays (count : nat) :
  forall from,
    2 * foldr Z.add 0 (linear_delays from (Z.of_nat count))
    = 1000 * Z.of_nat count * (2 * from + Z.of_nat count - 1).
Proof.
  induction count as [|count IH]; intros from.
  - unfold linear_delays. rewrite seqZ_nil by lia. simpl. lia.
  - rewrite linear_delays_cons by lia. cbn [foldr].
    replace (Z.of_nat (S count) - 1) with (Z.of_nat count) by lia.
    rewrite Z.mul_add_distr_l, (IH (from + 1)), Nat2Z.inj_succ. ring.
Qed.

Lemma sum_exponential_delays (count : nat) :
  forall from, 0 <= from ->
    foldr Z.add 0 (exponential_delays from (Z.of_nat count))
    = 1000 * (2 ^ (from + Z.of_nat count) - 2 ^ from).
Proof.
  induction count as [|count IH]; intros from Hfrom.
  - unfold exponential_delays. rewrite seqZ_nil by lia.
    cbn [fmap list_fmap foldr]. change (Z.of_nat 0) with 0.
    rewrite Z.add_0_r. ring.
  - rewrite exponential_delays_cons by lia. cbn [foldr].
    replace (Z.of_nat (S count) - 1) with (Z.of_nat count) by lia.
    rewrite (IH (from + 1)) by lia.
    replace (from + 1 + Z.of_nat count) with (from + Z.of_nat (S count)) by lia.
    rewrite (Z.pow_add_r 2 from 1) by lia. change (2 ^ 1) with 2. ring.
Qed.

(** X5: when every attempt fails with a Generic error, [makeRequest] with
    [retries = n >= 1] calls [fetch] exactly [n] times, sleeps 1000, 2000,
    ..., [1000 * (n - 1)] ms between the calls, [500 * n * (n - 1)] ms in
    all, and throws the error of attempt [n]. *)
Theorem makeRequest_generic_exhaustion sdk net endpoint options useBearer :
  1 <= retries sdk ->
  (forall attempt, generic_failure (net attempt)) ->
  makeRequest sdk net endpoint options useBearer
  = Some (Threw (Some (failure_of (net (retries sdk)))),
          retry_trace (makeRequest_call sdk endpoint options useBearer)
            (linear_delays 1 (retries sdk - 1)))
  /\ fetches (retry_trace (makeRequest_call sdk endpoint options useBearer)
                (linear_delays 1 (retries sdk - 1))) = Z.to_nat (retries sdk)
  /\ total_sleep (retry_trace (makeRequest_call sdk endpoint options useBearer)
                    (linear_delays 1 (retries sdk - 1)))
     = 500 * retries sdk * (retries sdk - 1).
Proof.
  intros Hge Hgen. split; [|split].
  - unfold makeRequest, retry_trace.
    destruct (attempt_loop_generic_prefix net
                (makeRequest_call sdk endpoint options useBearer) (retries sdk)
                (Z.to_nat (retries sdk - 1)) 2 1 None) as [lastError' Hrun];
      [intros; apply Hgen | lia |].
    replace (S (Z.to_nat (retries sdk)))
      with (Z.to_nat (retries sdk - 1) + 2)%nat by lia.
    rewrite Hrun.
    replace (Z.of_nat (Z.to_nat (retries sdk - 1))) with (retries sdk - 1) by lia.
    replace (1 + (retries sdk - 1)) with (retries sdk) by lia.
    rewrite attempt_loop_last_generic by apply Hgen. reflexivity.
  - rewrite fetches_retry_trace. unfold linear_delays.
    rewrite length_fmap, length_seqZ. lia.
  - unfold total_sleep. rewrite sleeps_retry_trace.
    pose proof (sum_linear_delays (Z.to_nat (retries sdk - 1)) 1) as Hsum.
    replace (Z.of_nat (Z.to_nat (retries sdk - 1))) with (retries sdk - 1)
      in Hsum by lia.
    nia.
Qed.

(** X6: when every attempt is answered 429 and classified RateLimit,
    [makeRequest] with [retries = n >= 1] calls [fetch] exactly [n] times,
    sleeps 2000, 4000, ..., [2 ^ (n - 1) * 1000] ms between the calls,
    [1000 * (2 ^ n - 2)] ms in all, and throws the error of attempt [n]. *)
Theorem makeRequest_rate_limit_exhaustion sdk net endpoint options useBearer :
  1 <= retries sdk ->
  (forall attempt, rate_limited (net attempt)) ->
  makeRequest sdk net endpoint options useBearer
  = Some (Threw (Some (failure_of (net (retries sdk)))),
          retry_trace (makeRequest_call sdk endpoint options useBearer)
            (exponential_delays 1 (retries sdk - 1)))
  /\ fetches (retry_trace (makeRequest_call sdk endpoint options useBearer)
                (exponential_delays 1 (retries sdk - 1))) = Z.to_nat (retries sdk)
  /\ total_sleep (retry_trace (makeRequest_call sdk endpoint options useBearer)
                    (exponential_delays 1 (retries sdk - 1)))
     = 1000 * (2 ^ retries sdk - 2).
Proof.
  intros Hge Hrate. split; [|split].
  - unfold makeRequest, retry_trace.
    replace (S (Z.to_nat (retries sdk)))
      with (Z.to_nat (retries sdk - 1) + 2)%nat by lia.
    rewrite attempt_loop_rate_limited_prefix by (try lia; intros; apply Hrate).
    replace (Z.of_nat (Z.to_nat (retries sdk - 1))) with (retries sdk - 1) by lia.
    replace (1 + (retries sdk - 1)) with (retries sdk) by lia.
    rewrite attempt_loop_last_rate_limited by apply Hrate. reflexivity.
  - rewrite fetches_retry_trace. unfold exponential_delays.
    rewrite length_fmap, length_seqZ. lia.
  - unfold total_sleep. rewrite sleeps_retry_trace.
    pose proof (sum_exponential_delays (Z.to_nat (retries sdk - 1)) 1 ltac:(lia))
      as Hsum.
    replace (Z.of_nat (Z.to_nat (retries sdk - 1))) with (retries sdk - 1)
      in Hsum by lia.
    replace (1 + (retries sdk - 1)) with (retries sdk) in Hsum by lia.
    rewrite Hsum. reflexivity.
Qed.

(** X7: when the attempts before attempt [k <= retries] fail with a Generic
    error and attempt [k] is answered 2xx, [makeRequest] returns that
    response after [k] calls and the delays 1000, ..., [1000 * (k - 1)]. *)
Theorem makeRequest_recovers_after_failures sdk net endpoint options useBearer k r :
  1 <= k <= retries sdk ->
  (forall attempt, 1 <= attempt < k -> generic_failure (net attempt)) ->
  net k = Resolves r ->
  ok r = true ->
  makeRequest sdk net endpoint options useBearer
  = Some (Returned r,
          retry_trace (makeRequest_call sdk endpoint options useBearer)
            (linear_delays 1 (k - 1))).
Proof.
  intros Hk Hgen Hnet Hok. unfold makeRequest, retry_trace.
  destruct (attempt_loop_generic_prefix net
              (makeRequest_call sdk endpoint options useBearer) (retries sdk)
              (Z.to_nat (k - 1))
              (S (Z.to_nat (retries sdk) - Z.to_nat (k - 1))) 1 None)
    as [lastError' Hrun]; [intros; apply Hgen; lia | lia |].
  replace (S (Z.to_nat (retries sdk)))
    with (Z.to_nat (k - 1) + S (Z.to_nat (retries sdk) - Z.to_nat (k - 1)))%nat
    by lia.
  rewrite Hrun.
  replace (Z.of_nat (Z.to_nat (k - 1))) with (k - 1) by lia.
  replace (1 + (k - 1)) with k by lia.
  rewrite (attempt_loop_success _ _ _ _ _ _ r) by (lia || assumption).
  reflexivity.
Qed.

(** X8: when the attempts before attempt [k <= retries] are answered 429
    and attempt [k] is answered 2xx, [makeRequest] returns that response
    after [k] calls and the delays 2000, ..., [2 ^ (k - 1) * 1000]. *)
Theorem makeRequest_recovers_after_rate_limits sdk net endpoint options useBearer k r :
  1 <= k <= retries sdk ->
  (forall attempt, 1 <= attempt < k -> rate_limited (net attempt)) ->
  net k = Resolves r ->
  ok r = true ->
  makeRequest sdk net endpoint options useBearer
  = Some (Returned r,
          retry_trace (makeRequest_call sdk endpoint options useBearer)
            (exponential_delays 1 (k - 1))).
Proof.
  intros Hk Hrate Hnet Hok. unfold makeRequest, retry_trace.
  replace (S (Z.to_nat (retries sdk)))
    with (Z.to_nat (k - 1) + S (Z.to_nat (retries sdk) - Z.to_nat (k - 1)))%nat
    by lia.
  rewrite attempt_loop_rate_limited_prefix by (try lia; intros; apply Hrate; lia).
  replace (Z.of_nat (Z.to_nat (k - 1))) with (k - 1) by lia.
  replace (1 + (k - 1)) with k by lia.
  rewrite (attempt_loop_success _ _ _ _ _ _ r) by (lia || assumption).
  reflexivity.
Qed.

Lemma generic_failure_unavailable attempt : generic_failure (unavailable_server attempt).
Proof. repeat split; discriminate. Qed.

Lemma rate_limited_sample attempt : rate_limited (rate_limited_server attempt).
Proof. eexists. split; [reflexivity|]. split; reflexivity. Qed.

Lemma generic_failure_recovering attempt :
  1 <= attempt < 3 -> generic_failure (recovering_server attempt).
Proof.
  intros H. unfold recovering_server.
  replace (attempt <? 3) with true by (symmetry; apply Z.ltb_lt; lia).
  repeat split; discriminate.
Qed.

Lemma rate_limited_throttling attempt :
  1 <= attempt < 3 -> rate_limited (throttling_server attempt).
Proof.
  intros H. unfold throttling_server.
  replace (attempt <? 3) with true by (symmetry; apply Z.ltb_lt; lia).
  eexists. split; [reflexivity|]. split; reflexivity.
Qed.

Lemma makeRequest_generic_exhaustion_witness :
  1 <= retries patient_sdk
  /\ (forall attempt, generic_failure (unavailable_server attempt))
  /\ makeRequest patient_sdk unavailable_server "/api/v1/usage" no_options false
     = Some (Threw (Some (failure_of (unavailable_server (retries patient_sdk)))),
             retry_trace (makeRequest_call patient_sdk "/api/v1/usage" no_options false)
               (linear_delays 1 (retries patient_sdk - 1)))
  /\ fetches (retry_trace (makeRequest_call patient_sdk "/api/v1/usage" no_options false)
                (linear_delays 1 (retries patient_sdk - 1)))
     = Z.to_nat (retries patient_sdk)
  /\ total_sleep (retry_trace
                    (makeRequest_call patient_sdk "/api/v1/usage" no_options false)
                    (linear_delays 1 (retries patient_sdk - 1)))
     = 500 * retries patient_sdk * (retries patient_sdk - 1).
Proof.
  split; [vm_compute; discriminate|]. split; [exact generic_failure_unavailable|].
  apply (makeRequest_generic_exhaustion patient_sdk unavailable_server
           "/api/v1/usage" no_options false);
    [vm_compute; discriminate | exact generic_failure_unavailable].
Defined.

Lemma makeRequest_rate_limit_exhaustion_witness :
  1 <= retries patient_sdk
  /\ (forall attempt, rate_limited (rate_limited_server attempt))
  /\ makeRequest patient_sdk rate_limited_server "/api/v1/usage" no_options false
     = Some (Threw (Some (failure_of (rate_limited_server (retries patient_sdk)))),
             retry_trace (makeRequest_call patient_sdk "/api/v1/usage" no_options false)
               (exponential_delays 1 (retries patient_sdk - 1)))
  /\ fetches (retry_trace (makeRequest_call patient_sdk "/api/v1/usage" no_options false)
                (exponential_delays 1 (retries patient_sdk - 1)))
     = Z.to_nat (retries patient_sdk)
  /\ total_sleep (retry_trace
                    (makeRequest_call patient_sdk "/api/v1/usage" no_options false)
                    (exponential_delays 1 (retries patient_sdk - 1)))
     = 1000 * (2 ^ retries patient_sdk - 2).
Proof.
  split; [vm_compute; discriminate|]. split; [exact rate_limited_sample|].
  apply (makeRequest_rate_limit_exhaustion patient_sdk rate_limited_server
           "/api/v1/usage" no_options false);
    [vm_compute; discriminate | exact rate_limited_sample].
Defined.

(** Five attempts against a server that always answers 503: four sleeps,
    ten seconds in all. *)
Example patient_sdk_linear_delays :
  linear_delays 1 (retries patient_sdk - 1) = [1000; 2000; 3000; 4000]
  /\ exponential_delays 1 (retries patient_sdk - 1) = [2000; 4000; 8000; 16000].
Proof. split; reflexivity. Qed.

Lemma makeRequest_recovers_after_failures_witness :
  1 <= 3 <= retries sample_sdk
  /\ (forall attempt, 1 <= attempt < 3 -> generic_failure (recovering_server attempt))
  /\ recovering_server 3 = Resolves ok_response
  /\ ok ok_response = true
  /\ makeRequest sample_sdk recovering_server "/api/v1/usage" no_options false
     = Some (Returned ok_response,
             retry_trace (makeRequest_call sample_sdk "/api/v1/usage" no_options false)
               (linear_delays 1 (3 - 1))).
Proof.
  assert (H3 : 1 <= 3 <= retries sample_sdk) by (vm_compute; split; discriminate).
  split; [exact H3|]. split; [exact generic_failure_recovering|].
  split; [reflexivity|]. split; [reflexivity|].
  apply (makeRequest_recovers_after_failures sample_sdk recovering_server
           "/api/v1/usage" no_options false 3 ok_response);
    [exact H3 | exact generic_failure_recovering | reflexivity | reflexivity].
Defined.

Lemma makeRequest_recovers_after_rate_limits_witness :
  1 <= 3 <= retries sample_sdk
  /\ (forall attempt, 1 <= attempt < 3 -> rate_limited (throttling_server attempt))
  /\ throttling_server 3 = Resolves ok_response
  /\ ok ok_response = true
  /\ makeRequest sample_sdk throttling_server "/api/v1/usage" no_options false
     = Some (Returned ok_response,
             retry_trace (makeRequest_call sample_sdk "/api/v1/usage" no_options false)
               (exponential_delays 1 (3 - 1))).
Proof.
  assert (H3 : 1 <= 3 <= retries sample_sdk) by (vm_compute; split; discriminate).
  split; [exact H3|]. split; [exact rate_limited_throttling|].
  split; [reflexivity|]. split; [reflexivity|].
  apply (makeRequest_recovers_after_rate_limits sample_sdk throttling_server
           "/api/v1/usage" no_options false 3 ok_response);
    [exact H3 | exact rate_limited_throttling | reflexivity | reflexivity].
Defined.

(* ===================================================================== *)
(** ** More on classification                                             *)
(* ===================================================================== *)

(** X9: a 401 or 402 answer whose body is the JSON value [null] is not
    raised at once: reading the body throws a [TypeError], which the loop
    retries like a Generic failure, after the linear delay. *)
Theorem makeRequest_retries_null_body sdk net endpoint options useBearer s r :
  2 <= retries sdk ->
  s = 401 \/ s = 402 ->
  net 1 = answer s (Some VNull) ->
  net 2 = Resolves r ->
  ok r = true ->
  makeRequest sdk net endpoint options useBearer
  = Some (Returned r,
          [EvFetch (makeRequest_call sdk endpoint options useBearer); EvSleep 1000;
           EvFetch (makeRequest_call sdk endpoint options useBearer)])
  /\ class (failure_of (net 1)) = Foreign "TypeError".
Proof.
  intros Hge Hs Hnet1 Hnet2 Hok. split.
  - unfold makeRequest.
    replace (S (Z.to_nat (retries sdk))) with (S (S (Z.to_nat (retries sdk) - 1)))
      by lia.
    rewrite attempt_loop_step, Hnet1.
    replace (1 <=? retries sdk) with true by (symmetry; apply Z.leb_le; lia).
    replace (1 =? retries sdk) with false by (symmetry; apply Z.eqb_neq; lia).
    unfold try_block, answer, errorData_of. cbn [resp_status resp_json default].
    rewrite ok_false_outside_2xx by (cbn [resp_status]; lia).
    replace (s =? 429) with false by (symmetry; apply Z.eqb_neq; lia).
    cbn [andb]. unfold instanceof_AuthenticationError,
      instanceof_InsufficientCreditsError.
    rewrite classify_null_body. cbn [orb].
    change (1 + 1) with 2. change (1000 * 1) with 1000.
    rewrite (attempt_loop_success _ _ _ _ _ _ r) by (lia || assumption).
    reflexivity.
  - rewrite Hnet1. apply classify_null_body.
Qed.

Lemma makeRequest_retries_null_body_witness :
  2 <= retries sample_sdk
  /\ (401 = 401 \/ 401 = 402)
  /\ null_body_server 1 = answer 401 (Some VNull)
  /\ null_body_server 2 = Resolves ok_response
  /\ ok ok_response = true
  /\ makeRequest sample_sdk null_body_server "/api/v1/usage" no_options false
     = Some (Returned ok_response,
             [EvFetch (makeRequest_call sample_sdk "/api/v1/usage" no_options false);
              EvSleep 1000;
              EvFetch (makeRequest_call sample_sdk "/api/v1/usage" no_options false)])
  /\ class (failure_of (null_body_server 1)) = Foreign "TypeError".
Proof.
  split; [vm_compute; discriminate|]. split; [left; reflexivity|].
  split; [reflexivity|]. split; [reflexivity|]. split; [reflexivity|].
  apply (makeRequest_retries_null_body sample_sdk null_body_server
           "/api/v1/usage" no_options false 401 ok_response);
    [vm_compute; discriminate | left; reflexivity | reflexivity | reflexivity
     | reflexivity].
Defined.

Lemma thrown_class (r : result js_error) c :
  throws_only_TypeError r ->
  (forall e, r = Ok e -> class e = c) ->
  class (thrown r) = c \/ class (thrown r) = Foreign "TypeError".
Proof.
  intros Hthrow Hok. destruct r as [e|e]; simpl.
  - left. apply Hok. reflexivity.
  - right. apply Hthrow. reflexivity.
Qed.

Lemma thrown_status (r : result js_error) s :
  throws_only_TypeError r ->
  (forall e, r = Ok e -> status e = Some s) ->
  class (thrown r) <> Foreign "TypeError" ->
  status (thrown r) = Some s.
Proof.
  intros Hthrow Hok Hclass. destruct r as [e|e]; simpl in *.
  - apply Hok. reflexivity.
  - destruct Hclass. apply Hthrow. reflexivity.
Qed.

Lemma bind_Ok {A B} (r : result A) (k : A -> result B) b :
  r ≫= k = Ok b -> exists a, r = Ok a /\ k a = Ok b.
Proof. destruct r as [a|e]; simpl; [eauto | discriminate]. Qed.

Lemma KushRouterError_Ok m s c d e :
  KushRouterError m s c d = Ok e ->
  class e = ClassKushRouterError /\ status e = s /\ code e = c /\ details e = d.
Proof.
  unfold KushRouterError. intros (text & _ & [= <-])%bind_Ok. repeat split.
Qed.

(** What the four branches of the [switch] build when nothing throws. *)
Lemma classify_branches http errorData :
  exists r : result js_error,
    classify http errorData = thrown r
    /\ throws_only_TypeError r
    /\ forall e, r = Ok e ->
         status e = Some http
         /\ class e = (if http =? 401 then ClassAuthenticationError
                       else if http =? 402 then ClassInsufficientCreditsError
                       else if http =? 429 then ClassRateLimitError
                       else ClassKushRouterError).
Proof.
  unfold classify.
  destruct (http =? 401) eqn:H401; [|destruct (http =? 402) eqn:H402;
    [|destruct (http =? 429) eqn:H429]];
    eexists; (split; [reflexivity|]); split.
  - apply bind_throws; [apply error_field_throws|]. intros m.
    apply bind_throws; [apply KushRouterError_throws | intros; apply Ok_throws].
  - intros e (m & _ & (e' & (_ & Hs & _)%KushRouterError_Ok & [= <-])%bind_Ok)%bind_Ok.
    apply Z.eqb_eq in H401 as ->. split; [exact Hs | reflexivity].
  - apply bind_throws; [apply error_field_throws|]. intros m.
    apply bind_throws; [apply error_field_throws|]. intros d.
    apply bind_throws; [apply KushRouterError_throws | intros; apply Ok_throws].
  - intros e (m & _ & (d & _ & (e' & (_ & Hs & _)%KushRouterError_Ok & [= <-])%bind_Ok)
              %bind_Ok)%bind_Ok.
    apply Z.eqb_eq in H402 as ->. split; [exact Hs | reflexivity].
  - apply bind_throws; [apply error_field_throws|]. intros m.
    apply bind_throws; [apply KushRouterError_throws | intros; apply Ok_throws].
  - intros e (m & _ & (e' & (_ & Hs & _)%KushRouterError_Ok & [= <-])%bind_Ok)%bind_Ok.
    apply Z.eqb_eq in H429 as ->. split; [exact Hs | reflexivity].
  - apply bind_throws; [apply error_field_throws|]. intros m.
    apply bind_throws; [apply error_field_throws|]. intros t.
    apply KushRouterError_throws.
  - intros e (m & _ & (t & _ & (Hc & Hs & _)%KushRouterError_Ok)%bind_Ok)%bind_Ok.
    split; assumption.
Qed.

(** X10: whatever the body, the class of the error tells the status: an
    AuthenticationError is only built for 401, an InsufficientCreditsError
    only for 402, a RateLimitError only for 429, and a plain KushRouterError
    for none of the three. *)
Theorem classify_class_tells_status http errorData :
  (class (classify http errorData) = ClassAuthenticationError -> http = 401)
  /\ (class (classify http errorData) = ClassInsufficientCreditsError -> http = 402)
  /\ (class (classify http errorData) = ClassRateLimitError -> http = 429)
  /\ (class (classify http errorData) = ClassKushRouterError ->
      http <> 401 /\ http <> 402 /\ http <> 429).
Proof.
  destruct (classify_branches http errorData) as (r & -> & Hthrow & Hok).
  assert (Hclass : class (thrown r)
                   = (if http =? 401 then ClassAuthenticationError
                      else if http =? 402 then ClassInsufficientCreditsError
                      else if http =? 429 then ClassRateLimitError
                      else ClassKushRouterError)
                   \/ class (thrown r) = Foreign "TypeError").
  { apply thrown_class; [exact Hthrow | intros e He; apply (Hok e He)]. }
  destruct (Z.eqb_spec http 401) as [->|H401];
    [|destruct (Z.eqb_spec http 402) as [->|H402];
      [|destruct (Z.eqb_spec http 429) as [->|H429]]];
    destruct Hclass as [-> | ->]; repeat split; try discriminate; try reflexivity;
    try assumption.
Qed.

(** X11: whatever the body, an error built by the [switch] (any exception
    of it but the [TypeError] of a failed read) carries the status of the
    response. *)
Theorem classify_keeps_status http errorData :
  class (classify http errorData) <> Foreign "TypeError" ->
  status (classify http errorData) = Some http.
Proof.
  destruct (classify_branches http errorData) as (r & -> & Hthrow & Hok).
  apply thrown_status; [exact Hthrow | intros e He; apply (Hok e He)].
Qed.

Lemma classify_keeps_status_witness :
  class (classify 402 credits_body) <> Foreign "TypeError"
  /\ status (classify 402 credits_body) = Some 402.
Proof.
  assert (H : class (classify 402 credits_body) <> Foreign "TypeError")
    by (vm_compute; intros E; discriminate E).
  split; [exact H|]. exact (classify_keeps_status 402 credits_body H).
Defined.


Lemma nested_no_error (props : gmap string value) key :
  props !! "error" = None -> nested (VObj props) key = VUndefined.
Proof. intros H. unfold nested, get. rewrite H. reflexivity. Qed.

(** X12: when the body of a failed response is not JSON, or is a JSON
    object without an [error] property, the error carries nothing of the
    body: the default message of its status (["HTTP <status>"] for a Generic
    error), the fixed code of its class or none, and no details. *)
Theorem failure_without_error_property r (props : gmap string value) :
  errorData_of r = VObj props ->
  props !! "error" = None ->
  failure_of (Resolves r) = default_error (resp_status r).
Proof.
  intros Hbody Herror. unfold failure_of. rewrite Hbody.
  rewrite (classify_cases _ (VObj props) "undefined");
    [| reflexivity | rewrite nested_no_error by exact Herror; reflexivity].
  rewrite !nested_no_error by exact Herror. reflexivity.
Qed.

Lemma failure_without_error_property_witness :
  errorData_of {| resp_status := 401; resp_json := Some flat_error_body |}
    = flat_error_body
  /\ ({[ "detail" := VStr "Not authenticated"; "message" := VStr "denied" ]}
        : gmap string value) !! "error" = None
  /\ failure_of (Resolves {| resp_status := 401; resp_json := Some flat_error_body |})
     = default_error 401.
Proof.
  split; [reflexivity|]. split; [reflexivity|].
  exact (failure_without_error_property
           {| resp_status := 401; resp_json := Some flat_error_body |}
           {[ "detail" := VStr "Not authenticated"; "message" := VStr "denied" ]}
           eq_refl eq_refl).
Defined.

(** A body that [response.json()] rejects counts as the empty object. *)
Example failure_of_html_body :
  failure_of (answer 502 None) = default_error 502
  /\ message (default_error 502) = "HTTP 502".
Proof. split; reflexivity. Qed.

(* ===================================================================== *)
(** ** Headers and addresses                                              *)
(* ===================================================================== *)

(** X13: each chat operation hands the key to [fetch] in one header only:
    the unified and the Anthropic-compatible operations in [x-api-key], the
    OpenAI-compatible ones as a bearer token; the Anthropic-compatible ones
    add the version header; all send [Content-Type: application/json]. *)
Theorem chat_headers sdk (request : value) (props : gmap string value) :
  call_headers (makeRequest_call sdk "/api/v1/messages"
                  (chatUnified_options request) false)
    = {[ "Content-Type" := "application/json"; "x-api-key" := apiKey sdk ]}
  /\ call_headers (makeRequest_call sdk "/api/v1/messages"
                     (streamUnified_options props) false)
     = {[ "Content-Type" := "application/json"; "x-api-key" := apiKey sdk ]}
  /\ call_headers (makeRequest_call sdk "/api/openai/chat/completions"
                     (chatOpenAI_options request) true)
     = {[ "Content-Type" := "application/json";
          "Authorization" := "Bearer " ++ apiKey sdk ]}
  /\ call_headers (makeRequest_call sdk "/api/openai/chat/completions"
                     (streamOpenAI_options props) true)
     = {[ "Content-Type" := "application/json";
          "Authorization" := "Bearer " ++ apiKey sdk ]}
  /\ call_headers (makeRequest_call sdk "/api/anthropic/messages"
                     (chatAnthropic_options request) false)
     = {[ "Content-Type" := "application/json"; "x-api-key" := apiKey sdk;
          "anthropic-version" := "2023-06-01" ]}
  /\ call_headers (makeRequest_call sdk "/api/anthropic/messages"
                     (streamAnthropic_options props) false)
     = {[ "Content-Type" := "application/json"; "x-api-key" := apiKey sdk;
          "anthropic-version" := "2023-06-01" ]}.
Proof.
  repeat split; apply map_eq; intros k; cbn [makeRequest_call call_headers
    chatUnified_options streamUnified_options chatOpenAI_options
    streamOpenAI_options chatAnthropic_options streamAnthropic_options
    anthropic_options post_json init_headers]; unfold request_headers;
    repeat (rewrite ?lookup_union, ?lookup_insert, ?lookup_singleton, ?lookup_empty;
            repeat case_decide; subst; try discriminate; try reflexivity).
Qed.

(** X14: every attempt of a run hands [fetch] the same request: the
    address, method and body of the call, the key in the one header that
    [useBearer] selects, and each header of the caller unchanged. *)
Theorem makeRequest_same_request_every_attempt
    sdk net endpoint options useBearer outcome trace c :
  makeRequest sdk net endpoint options useBearer = Some (outcome, trace) ->
  In (EvFetch c) trace ->
  init_headers options !! "Authorization" = None ->
  init_headers options !! "x-api-key" = None ->
  call_url c = joinUrl (baseURL sdk) endpoint
  /\ call_method c = init_method options
  /\ call_body c = init_body options
  /\ call_headers c !! "Authorization"
     = (if useBearer then Some ("Bearer " ++ apiKey sdk) else None)
  /\ call_headers c !! "x-api-key" = (if useBearer then None else Some (apiKey sdk))
  /\ (forall k v, init_headers options !! k = Some v -> call_headers c !! k = Some v).
Proof.
  intros Hrun Hin Hauth Hkey. unfold makeRequest in Hrun.
  rewrite (attempt_loop_calls _ _ _ _ _ _ _ _ _ Hrun Hin).
  cbn [makeRequest_call call_url call_method call_body call_headers].
  unfold request_headers. repeat split.
  - rewrite lookup_union_r by exact Hauth. destruct useBearer; reflexivity.
  - rewrite lookup_union_r by exact Hkey. destruct useBearer; reflexivity.
  - intros k v Hk. apply lookup_union_Some_l, Hk.
Qed.

Lemma makeRequest_same_request_every_attempt_witness :
  makeRequest sample_sdk recovering_server "/api/anthropic/messages"
    (chatAnthropic_options (VObj ∅)) false
  = Some (Returned ok_response,
          retry_trace (makeRequest_call sample_sdk "/api/anthropic/messages"
                         (chatAnthropic_options (VObj ∅)) false) [1000; 2000])
  /\ In (EvFetch (makeRequest_call sample_sdk "/api/anthropic/messages"
                    (chatAnthropic_options (VObj ∅)) false))
        (retry_trace (makeRequest_call sample_sdk "/api/anthropic/messages"
                        (chatAnthropic_options (VObj ∅)) false) [1000; 2000])
  /\ init_headers (chatAnthropic_options (VObj ∅)) !! "Authorization" = None
  /\ init_headers (chatAnthropic_options (VObj ∅)) !! "x-api-key" = None
  /\ call_url (makeRequest_call sample_sdk "/api/anthropic/messages"
                 (chatAnthropic_options (VObj ∅)) false)
     = joinUrl (baseURL sample_sdk) "/api/anthropic/messages"
  /\ call_method (makeRequest_call sample_sdk "/api/anthropic/messages"
                    (chatAnthropic_options (VObj ∅)) false)
     = init_method (chatAnthropic_options (VObj ∅))
  /\ call_body (makeRequest_call sample_sdk "/api/anthropic/messages"
                  (chatAnthropic_options (VObj ∅)) false)
     = init_body (chatAnthropic_options (VObj ∅))
  /\ call_headers (makeRequest_call sample_sdk "/api/anthropic/messages"
                     (chatAnthropic_options (VObj ∅)) false) !! "Authorization"
     = (if false then Some ("Bearer " ++ apiKey sample_sdk) else None)
  /\ call_headers (makeRequest_call sample_sdk "/api/anthropic/messages"
                     (chatAnthropic_options (VObj ∅)) false) !! "x-api-key"
     = (if false then None else Some (apiKey sample_sdk))
  /\ (forall k v,
        init_headers (chatAnthropic_options (VObj ∅)) !! k = Some v ->
        call_headers (makeRequest_call sample_sdk "/api/anthropic/messages"
                        (chatAnthropic_options (VObj ∅)) false) !! k = Some v).
Proof.
  assert (Hrun : makeRequest sample_sdk recovering_server "/api/anthropic/messages"
                   (chatAnthropic_options (VObj ∅)) false
                 = Some (Returned ok_response,
                         retry_trace (makeRequest_call sample_sdk
                                        "/api/anthropic/messages"
                                        (chatAnthropic_options (VObj ∅)) false)
                           [1000; 2000]))
    by (vm_compute; reflexivity).
  split; [exact Hrun|]. split; [left; reflexivity|].
  split; [reflexivity|]. split; [reflexivity|].
  exact (makeRequest_same_request_every_attempt sample_sdk recovering_server
           "/api/anthropic/messages" (chatAnthropic_options (VObj ∅)) false
           _ _ _ Hrun (or_introl eq_refl) eq_refl eq_refl).
Defined.

Lemma strip_trailing_slash_added base : strip_trailing_slash (base ++ slash) = base.
Proof.
  induction base as [|c base IH]; [reflexivity|].
  rewrite append_cons. cbn [strip_trailing_slash]. rewrite IH.
  destruct base; reflexivity.
Qed.

Lemma strip_trailing_slash_none base :
  ends_with_slash base = false -> strip_trailing_slash base = base.
Proof.
  induction base as [|c base IH]; [reflexivity|].
  cbn [ends_with_slash strip_trailing_slash]. destruct base as [|d base].
  - intros ->. reflexivity.
  - intros H. rewrite (IH H). reflexivity.
Qed.

Lemma prefix_slash_added path : String.prefix "/" (slash ++ path) = true.
Proof. destruct path; reflexivity. Qed.

(** X15: [joinUrl] puts exactly one slash between a base that does not end
    with one and a path that does not begin with one, whether or not the
    base is given a trailing slash and the path a leading one. *)
Theorem joinUrl_one_slash base path :
  ends_with_slash base = false ->
  String.prefix "/" path = false ->
  joinUrl base path = base ++ slash ++ path
  /\ joinUrl (base ++ slash) path = base ++ slash ++ path
  /\ joinUrl base (slash ++ path) = base ++ slash ++ path
  /\ joinUrl (base ++ slash) (slash ++ path) = base ++ slash ++ path.
Proof.
  intros Hbase Hpath. unfold joinUrl.
  rewrite strip_trailing_slash_added, (strip_trailing_slash_none _ Hbase),
    prefix_slash_added, Hpath.
  repeat split.
Qed.

Lemma joinUrl_one_slash_witness :
  ends_with_slash "https://api.kushrouter.com" = false
  /\ String.prefix "/" "api/v1/usage" = false
  /\ joinUrl "https://api.kushrouter.com" "api/v1/usage"
     = "https://api.kushrouter.com" ++ slash ++ "api/v1/usage"
  /\ joinUrl ("https://api.kushrouter.com" ++ slash) "api/v1/usage"
     = "https://api.kushrouter.com" ++ slash ++ "api/v1/usage"
  /\ joinUrl "https://api.kushrouter.com" (slash ++ "api/v1/usage")
     = "https://api.kushrouter.com" ++ slash ++ "api/v1/usage"
  /\ joinUrl ("https://api.kushrouter.com" ++ slash) (slash ++ "api/v1/usage")
     = "https://api.kushrouter.com" ++ slash ++ "api/v1/usage".
Proof.
  split; [reflexivity|]. split; [reflexivity|].
  exact (joinUrl_one_slash "https://api.kushrouter.com" "api/v1/usage"
           eq_refl eq_refl).
Defined.

(** X16: a client the constructor accepts has a key that is not empty, the
    fixed base address, and neither a timeout nor an attempt bound of 0: an
    option given as 0 is replaced by its default. *)
Theorem new_KushRouterSDK_invariants config sdk :
  new_KushRouterSDK config = Some sdk ->
  apiKey sdk = config_apiKey config
  /\ apiKey sdk <> ""
  /\ baseURL sdk = "https://api.kushrouter.com"
  /\ timeout sdk <> 0
  /\ retries sdk <> 0
  /\ (config_retries config = Some 0 -> retries sdk = 3)
  /\ (config_timeout config = Some 0 -> timeout sdk = 30000).
Proof.
  unfold new_KushRouterSDK.
  destruct (String.eqb_spec (config_apiKey config) "") as [|Hkey]; [discriminate|].
  intros [= <-]. cbn [apiKey baseURL timeout retries].
  repeat split; try assumption.
  - unfold number_or. destruct (config_timeout config) as [[| |]|]; discriminate.
  - unfold number_or. destruct (config_retries config) as [[| |]|]; discriminate.
  - intros ->. reflexivity.
  - intros ->. reflexivity.
Qed.

Lemma new_KushRouterSDK_invariants_witness :
  new_KushRouterSDK zero_config = Some sample_sdk
  /\ apiKey sample_sdk = config_apiKey zero_config
  /\ apiKey sample_sdk <> ""
  /\ baseURL sample_sdk = "https://api.kushrouter.com"
  /\ timeout sample_sdk <> 0
  /\ retries sample_sdk <> 0
  /\ (config_retries zero_config = Some 0 -> retries sample_sdk = 3)
  /\ (config_timeout zero_config = Some 0 -> timeout sample_sdk = 30000).
Proof.
  split; [reflexivity|].
  exact (new_KushRouterSDK_invariants zero_config sample_sdk eq_refl).
Defined.

(* ===================================================================== *)
(** ** More on normalisation                                              *)
(* ===================================================================== *)

Lemma normalize_renamed s (props : gmap string value) :
  normalize s (VObj props) = VObj (renamed s props).
Proof. destruct s; reflexivity. Qed.

Lemma normalize_array s elems :
  normalize s (VArr elems) = VObj (renamed s (spread (VArr elems))).
Proof. destruct s; reflexivity. Qed.

Lemma rename_field_noop alt wire (out : gmap string value) :
  is_undefined (get out alt) = true -> rename_field alt wire out = out.
Proof. intros H. unfold rename_field. rewrite H. reflexivity. Qed.

Lemma rename_field_clears alt wire (out : gmap string value) :
  is_undefined (get (rename_field alt wire out) alt) = true.
Proof.
  unfold rename_field. destruct (is_undefined (get out alt)) eqn:H; [exact H|].
  unfold get. rewrite lookup_delete_eq. reflexivity.
Qed.

(** After the blocks of a normaliser no alternate-form key holds a value. *)
Lemma renamed_clears s (props : gmap string value) alt wire :
  In (alt, wire) (renamed_fields s) ->
  is_undefined (get (renamed s props) alt) = true.
Proof.
  intros Hin.
  destruct s; unfold renamed_fields, unified_fields, openai_fields in Hin;
    cbn [In] in Hin; unfold renamed; cbn [foldl renamed_fields unified_fields
      openai_fields];
    repeat (destruct Hin as [[= <- <-]|Hin];
            [unfold get; skip_renames; apply rename_field_clears|]);
    destruct Hin.
Qed.

(** Blocks whose alternate-form keys hold nothing change nothing. *)
Lemma foldl_rename_noop fields (props : gmap string value) :
  Forall (fun field : string * string => is_undefined (get props field.1) = true)
    fields ->
  foldl (fun out '(alt, wire) => rename_field alt wire out) props fields = props.
Proof.
  induction 1 as [|[alt wire] fields Hhere _ IH]; [reflexivity|].
  cbn [foldl]. rewrite (rename_field_noop _ _ _ Hhere). exact IH.
Qed.

(** Blocks leave the keys they do not name alone. *)
Lemma foldl_rename_other fields : forall (props : gmap string value) k,
  Forall (fun field : string * string => k <> field.1 /\ k <> field.2) fields ->
  foldl (fun out '(alt, wire) => rename_field alt wire out) props fields !! k
  = props !! k.
Proof.
  induction fields as [|[alt wire] fields IH]; intros props k Hall; [reflexivity|].
  inversion Hall as [|? ? [Halt Hwire] Hrest]; subst.
  cbn [foldl]. rewrite (IH _ _ Hrest). apply rename_field_other; assumption.
Qed.

(** X17: after normalisation no alternate-form (camelCase) key of the
    normaliser holds a value: each one is absent or [undefined]. *)
Theorem normalize_clears_alternate_forms s req alt wire :
  In (alt, wire) (renamed_fields s) ->
  is_undefined (read (normalize s req) alt) = true.
Proof.
  intros Hin. destruct req as [ | |b|r|t|elems|props];
    try (destruct s; reflexivity).
  - rewrite normalize_array. apply (renamed_clears _ _ _ _ Hin).
  - rewrite normalize_renamed. apply (renamed_clears _ _ _ _ Hin).
Qed.

Lemma normalize_clears_alternate_forms_witness :
  In ("maxTokens", "max_tokens") (renamed_fields OpenAI)
  /\ is_undefined (read (normalize OpenAI (VObj both_spellings)) "maxTokens") = true.
Proof.
  split; [left; reflexivity|].
  exact (normalize_clears_alternate_forms OpenAI (VObj both_spellings)
           "maxTokens" "max_tokens" (or_introl eq_refl)).
Defined.

Lemma renamed_idempotent s (props : gmap string value) :
  renamed s (renamed s props) = renamed s props.
Proof.
  unfold renamed at 1. apply foldl_rename_noop, Forall_forall.
  intros [alt wire] Hin. apply (renamed_clears s props alt wire).
  apply list_elem_of_In, Hin.
Qed.

(** X18: both normalisers are idempotent: normalising a normalised request
    changes nothing. *)
Theorem normalize_idempotent s req :
  normalize s (normalize s req) = normalize s req.
Proof.
  destruct req as [ | |b|r|t|elems|props]; try (destruct s; reflexivity).
  - rewrite normalize_array, normalize_renamed, renamed_idempotent. reflexivity.
  - rewrite !normalize_renamed, renamed_idempotent. reflexivity.
Qed.

(** X19: normalisation leaves every property alone that is neither an
    alternate-form nor a wire-form name of the normaliser: [model],
    [messages], [temperature] and the like reach the wire unchanged. *)
Theorem normalize_keeps_other_properties s (props : gmap string value) k :
  ~ touched s k ->
  property (normalize s (VObj props)) k = props !! k.
Proof.
  intros Hk. rewrite normalize_renamed. cbn [property]. unfold renamed.
  apply foldl_rename_other, Forall_forall. intros [alt wire] Hin.
  apply list_elem_of_In in Hin.
  split; intros ->; apply Hk; exists alt, wire; auto.
Qed.

Lemma messages_untouched : ~ touched Unified "messages".
Proof.
  intros (alt & wire & Hin & Hk). cbn in Hin.
  repeat (destruct Hin as [[= <- <-]|Hin]; [destruct Hk; discriminate|]).
  destruct Hin.
Qed.

Lemma normalize_keeps_other_properties_witness :
  ~ touched Unified "messages"
  /\ property (normalize Unified (VObj both_spellings)) "messages"
     = both_spellings !! "messages".
Proof.
  split; [exact messages_untouched|].
  exact (normalize_keeps_other_properties Unified both_spellings "messages"
           messages_untouched).
Defined.

(** X20: a request object that uses only the wire-form names passes through
    a normaliser unchanged. *)
Theorem normalize_wire_form_only s (props : gmap string value) :
  (forall alt wire, In (alt, wire) (renamed_fields s) ->
                    is_undefined (get props alt) = true) ->
  normalize s (VObj props) = VObj props.
Proof.
  intros Hall. rewrite normalize_renamed. f_equal. unfold renamed.
  apply foldl_rename_noop, Forall_forall. intros [alt wire] Hin.
  apply (Hall alt wire), list_elem_of_In, Hin.
Qed.

Lemma snake_only_has_no_alternate s alt wire :
  In (alt, wire) (renamed_fields s) -> is_undefined (get snake_only alt) = true.
Proof.
  intros Hin. destruct s; cbn in Hin;
    repeat (destruct Hin as [[= <- <-]|Hin]; [reflexivity|]); destruct Hin.
Qed.

Lemma normalize_wire_form_only_witness :
  (forall alt wire, In (alt, wire) (renamed_fields Unified) ->
                    is_undefined (get snake_only alt) = true)
  /\ normalize Unified (VObj snake_only) = VObj snake_only.
Proof.
  split; [exact (snake_only_has_no_alternate Unified)|].
  exact (normalize_wire_form_only Unified snake_only
           (snake_only_has_no_alternate Unified)).
Defined.

Lemma rename_field_insert_other alt wire k v (out : gmap string value) :
  k <> alt -> k <> wire ->
  rename_field alt wire (<[ k := v ]> out) = <[ k := v ]> (rename_field alt wire out).
Proof.
  intros Halt Hwire. unfold rename_field, get.
  rewrite !lookup_insert_ne by congruence.
  destruct (is_undefined (default VUndefined (out !! alt))); [reflexivity|].
  rewrite (insert_insert_ne _ wire k) by congruence.
  apply delete_insert_ne. congruence.
Qed.

Lemma foldl_rename_insert_other fields : forall (props : gmap string value) k v,
  Forall (fun field : string * string => k <> field.1 /\ k <> field.2) fields ->
  foldl (fun out '(alt, wire) => rename_field alt wire out) (<[ k := v ]> props) fields
  = <[ k := v ]> (foldl (fun out '(alt, wire) => rename_field alt wire out) props fields).
Proof.
  induction fields as [|[alt wire] fields IH]; intros props k v Hall; [reflexivity|].
  inversion Hall as [|? ? [Halt Hwire] Hrest]; subst.
  cbn [foldl]. rewrite rename_field_insert_other by assumption. apply IH, Hrest.
Qed.

Lemma stream_not_renamed s :
  Forall (fun field : string * string => "stream" <> field.1 /\ "stream" <> field.2)
    (renamed_fields s).
Proof. destruct s; repeat constructor; discriminate. Qed.

Lemma stream_request_sets_stream_aux s (props : gmap string value) k :
  property (normalize s (with_stream props)) k
  = if decide (k = "stream") then Some (VBool true)
    else property (normalize s (VObj props)) k.
Proof.
  unfold with_stream. rewrite !normalize_renamed. cbn [property]. unfold renamed.
  rewrite foldl_rename_insert_other by apply stream_not_renamed.
  case_decide as Hk.
  - subst. apply lookup_insert_eq.
  - apply lookup_insert_ne. congruence.
Qed.

(** X21: the body of a streaming chat request is the body of the blocking
    request with [stream] set to [true], whatever [stream] the caller gave. *)
Theorem stream_request_sets_stream s (props : gmap string value) k :
  property (normalize s (with_stream props)) k
  = if decide (k = "stream") then Some (VBool true)
    else property (normalize s (VObj props)) k.
Proof. apply stream_request_sets_stream_aux. Qed.

Lemma or_default_defined arg dflt :
  is_undefined dflt = false -> is_undefined (or_default arg dflt) = false.
Proof. intros H. unfold or_default. destruct (is_undefined arg) eqn:E; assumption. Qed.

Lemma read_renamed_other s (props : gmap string value) k :
  Forall (fun field : string * string => k <> field.1 /\ k <> field.2)
    (renamed_fields s) ->
  get (renamed s props) k = get props k.
Proof. intros H. unfold get, renamed. rewrite foldl_rename_other by exact H. reflexivity. Qed.

(** What the unified normaliser makes of a request that names its token
    limit and its reasoning effort in the alternate form only. *)
Lemma renamed_convenience (props : gmap string value) limit :
  props !! "maxTokens" = Some limit ->
  is_undefined limit = false ->
  props !! "max_tokens" = None ->
  props !! "reasoning_effort" = None ->
  get (renamed Unified props) "max_tokens" = limit
  /\ renamed Unified props !! "maxTokens" = None
  /\ get (renamed Unified props) "reasoning_effort" = get props "reasoningEffort".
Proof.
  intros Hlimit Hdef Hwire Heffort. unfold renamed.
  cbn [foldl renamed_fields unified_fields]. repeat split.
  - unfold get. skip_renames. rewrite rename_field_wire;
      [| discriminate | unfold get; rewrite Hlimit; exact Hdef].
    unfold nullish_coalesce, get. rewrite Hwire, Hlimit. reflexivity.
  - skip_renames. apply rename_field_alt. unfold get. rewrite Hlimit. exact Hdef.
  - destruct (is_undefined (get props "reasoningEffort")) eqn:Hu.
    + assert (Hval : get props "reasoningEffort" = VUndefined)
        by (destruct (get props "reasoningEffort"); try discriminate; reflexivity).
      rewrite Hval. unfold get at 1. skip_renames.
      rewrite rename_field_noop by (unfold get; skip_renames; exact Hu).
      skip_renames. rewrite Heffort. reflexivity.
    + unfold get at 1. skip_renames.
      rewrite rename_field_wire;
        [| discriminate | unfold get in *; skip_renames; exact Hu].
      unfold nullish_coalesce, get. skip_renames. rewrite Heffort. reflexivity.
Qed.

Lemma convenience_body_property (request : gmap string value) k :
  k <> "stream" ->
  property (convenience_body request) k = renamed Unified request !! k.
Proof.
  intros Hk. unfold convenience_body.
  destruct (truthy (get request "stream")).
  - rewrite (stream_request_sets_stream_aux Unified). rewrite decide_False by exact Hk.
    reflexivity.
  - reflexivity.
Qed.

Lemma read_property v k : read v k = default VUndefined (property v k).
Proof. destruct v; reflexivity. Qed.

Lemma convenience_body_read (request : gmap string value) k :
  k <> "stream" ->
  read (convenience_body request) k = get (renamed Unified request) k.
Proof.
  intros Hk. rewrite read_property, (convenience_body_property _ _ Hk). reflexivity.
Qed.

Lemma renamed_no_prompt_cache (request : gmap string value) :
  request !! "promptCache" = None ->
  request !! "prompt_cache" = None ->
  renamed Unified request !! "prompt_cache" = None
  /\ renamed Unified request !! "promptCache" = None.
Proof.
  intros Halt Hwire. unfold renamed. cbn [foldl renamed_fields unified_fields].
  split; skip_renames;
    (rewrite rename_field_noop
       by (unfold get; skip_renames; rewrite Halt; reflexivity));
    skip_renames; assumption.
Qed.

Lemma wire_summary_of_request options (request : gmap string value) :
  request !! "maxTokens" = Some (or_default (opt_maxTokens options) (VNum "1000")) ->
  request !! "max_tokens" = None ->
  request !! "reasoning_effort" = None ->
  get request "reasoningEffort" = opt_reasoning_effort options ->
  request !! "promptCache" = None ->
  request !! "prompt_cache" = None ->
  wire_summary options (convenience_body request).
Proof.
  intros Hlimit Hwire Heffort Halt Hpc Hpc'.
  destruct (renamed_convenience request _ Hlimit
              (or_default_defined (opt_maxTokens options) (VNum "1000") eq_refl)
              Hwire Heffort) as (H1 & H2 & H3).
  destruct (renamed_no_prompt_cache request Hpc Hpc') as [H4 H5].
  unfold wire_summary.
  rewrite !convenience_body_read, !convenience_body_property by discriminate.
  rewrite H1, H2, H3, H4, H5, Halt. repeat split.
Qed.

(** X22: [complete] and [chat] send the token limit as [max_tokens] (the
    option, or 1000), never as [maxTokens]; they send the [reasoning_effort]
    option under that name; and the [prompt_cache] option never reaches the
    wire, in either spelling. *)
Theorem convenience_wire_body prompt messages options :
  wire_summary options (convenience_body (complete_request prompt options))
  /\ wire_summary options (convenience_body (chat_request messages options)).
Proof.
  split; apply wire_summary_of_request; reflexivity.
Qed.

(* ===================================================================== *)
(** ** The convenience calls                                              *)
(* ===================================================================== *)

Lemma opt_member_read v k : opt_member v k = Ok (read v k).
Proof. destruct v; reflexivity. Qed.

Lemma first_choice_content_choices (props : gmap string value) elems field :
  props !! "choices" = Some (VArr elems) ->
  first_choice_content (VObj props) field
  = Ok (read (read (List.hd VUndefined elems) field) "content").
Proof.
  intros H. unfold first_choice_content. cbn [member]. unfold get. rewrite H.
  unfold mbind, result_bind. cbn [default].
  change (first_element (id (VArr elems))) with (Ok (List.hd VUndefined elems)).
  cbv beta iota. rewrite opt_member_read. cbv beta iota. apply opt_member_read.
Qed.

Lemma first_choice_content_missing (props : gmap string value) field :
  is_nullish (get props "choices") = true ->
  exists msg, first_choice_content (VObj props) field = Throw (TypeError msg).
Proof.
  intros H. unfold first_choice_content. cbn [member].
  destruct (get props "choices"); try discriminate; eexists; reflexivity.
Qed.

(** X23: for a parsed response whose [choices] is an array, [complete] and
    [chat] return the content of the first choice's message when it is
    truthy and the empty string otherwise, also when [choices] is empty;
    for a response object whose [choices] is missing or [null] they throw a
    [TypeError]. *)
Theorem first_message_content_cases (props : gmap string value) :
  (forall elems, props !! "choices" = Some (VArr elems) ->
     first_message_content (VObj props)
     = Ok (if truthy (read (read (List.hd VUndefined elems) "message") "content")
           then read (read (List.hd VUndefined elems) "message") "content"
           else VStr ""))
  /\ (is_nullish (get props "choices") = true ->
      exists msg, first_message_content (VObj props) = Throw (TypeError msg)).
Proof.
  split.
  - intros elems H. unfold first_message_content.
    rewrite (first_choice_content_choices _ _ _ H). reflexivity.
  - intros H. unfold first_message_content.
    destruct (first_choice_content_missing _ "message" H) as [msg ->].
    exists msg. reflexivity.
Qed.

(** A response with no choice gives the empty string; one without
    [choices] throws. *)
Example first_message_content_edges :
  first_message_content (VObj {[ "choices" := VArr [] ]}) = Ok (VStr "")
  /\ first_message_content usage_frame
     = Throw (TypeError "Cannot read properties of undefined (reading '0')")
  /\ first_message_content
       (VObj {[ "choices" :=
                  VArr [VObj {[ "message" := VObj {[ "content" := VStr "Hi" ]} ]}] ]})
     = Ok (VStr "Hi").
Proof. repeat split. Qed.

Lemma has_choices_content chunk :
  has_choices chunk -> first_choice_content chunk "delta" = Ok (delta_content chunk).
Proof.
  intros (props & elems & -> & H).
  rewrite (first_choice_content_choices _ _ _ H).
  unfold delta_content, choices_of. cbn [read]. unfold get. rewrite H. reflexivity.
Qed.

Lemma streamText_frames_truthy frames :
  Forall (fun text => truthy text = true) (streamText_frames frames).1.
Proof.
  induction frames as [|chunk rest IH]; cbn [streamText_frames]; [constructor|].
  destruct (first_choice_content chunk "delta") as [content|e]; [|constructor].
  destruct (streamText_frames rest) as [texts failure]. cbn [fst] in *.
  destruct (truthy content) eqn:Ht; [constructor; assumption | exact IH].
Qed.

Lemma streamText_frames_choices frames :
  Forall has_choices frames ->
  streamText_frames frames
  = (filter (fun text => truthy text = true) (delta_content <$> frames), None).
Proof.
  induction 1 as [|chunk rest Hchunk _ IH]; [reflexivity|].
  cbn [streamText_frames]. rewrite (has_choices_content _ Hchunk), IH.
  cbn [fmap list_fmap]. rewrite filter_cons.
  destruct (truthy (delta_content chunk)) eqn:Ht.
  - rewrite decide_True by reflexivity. reflexivity.
  - rewrite decide_False by discriminate. reflexivity.
Qed.

Lemma streamText_frames_app frames frames' :
  streamText_frames (frames ++ frames')
  = match (streamText_frames frames).2 with
    | Some e => streamText_frames frames
    | None => (((streamText_frames frames).1 ++ (streamText_frames frames').1)%list,
               (streamText_frames frames').2)
    end.
Proof.
  induction frames as [|chunk rest IH]; cbn [app streamText_frames].
  - destruct (streamText_frames frames'); reflexivity.
  - destruct (first_choice_content chunk "delta") as [content|e]; [|reflexivity].
    rewrite IH. destruct (streamText_frames rest) as [texts [e|]]; cbn [fst snd].
    + reflexivity.
    + destruct (streamText_frames frames') as [texts' failure'].
      destruct (truthy content); reflexivity.
Qed.

Section StreamText.

Variable JSON_parse : string -> option value.

(** X24: every value [streamText] yields is truthy: a chunk whose first
    choice has no delta content, or an empty one, yields nothing. *)
Theorem streamText_yields_truthy chunks :
  Forall (fun text => truthy text = true) (streamText JSON_parse chunks).1.
Proof.
  unfold streamText. destruct (streamUnified JSON_parse chunks) as [frames ending].
  pose proof (streamText_frames_truthy frames) as H.
  destruct (streamText_frames frames) as [texts failure]. exact H.
Qed.

(** X25: when every frame of the stream is an object whose [choices] is an
    array, [streamText] yields the truthy delta contents of the frames, in
    order, and ends as the stream does. *)
Theorem streamText_of_chat_chunks chunks frames ending :
  streamUnified JSON_parse chunks = (frames, ending) ->
  Forall has_choices frames ->
  streamText JSON_parse chunks
  = (filter (fun text => truthy text = true) (delta_content <$> frames),
     TextEnd ending).
Proof.
  intros Hstream Hall. unfold streamText.
  rewrite Hstream, (streamText_frames_choices _ Hall). reflexivity.
Qed.

(** X26: a frame that is an object without [choices] (or with [choices:
    null]) ends [streamText] with a [TypeError]: the texts of the frames
    before it have been yielded, and no later frame is looked at. *)
Theorem streamText_throws_without_choices
    chunks before (props : gmap string value) later ending :
  streamUnified JSON_parse chunks = ((before ++ VObj props :: later)%list, ending) ->
  Forall has_choices before ->
  is_nullish (get props "choices") = true ->
  exists msg,
    streamText JSON_parse chunks
    = (filter (fun text => truthy text = true) (delta_content <$> before),
       TextThrew (TypeError msg)).
Proof.
  intros Hstream Hbefore Hprops. unfold streamText.
  rewrite Hstream, streamText_frames_app, (streamText_frames_choices _ Hbefore).
  cbn [fst snd streamText_frames].
  destruct (first_choice_content_missing _ "delta" Hprops) as [msg ->].
  exists msg. rewrite app_nil_r. reflexivity.
Qed.

End StreamText.

Lemma has_choices_delta_frame text : has_choices (delta_frame text).
Proof. eexists _, _. split; reflexivity. Qed.

Lemma streamText_of_chat_chunks_witness :
  streamUnified Fragment.parse_json text_stream
  = ([delta_frame (VStr "Hel"); delta_frame (VStr ""); delta_frame (VStr "lo")],
     SawDone)
  /\ Forall has_choices
       [delta_frame (VStr "Hel"); delta_frame (VStr ""); delta_frame (VStr "lo")]
  /\ streamText Fragment.parse_json text_stream
     = (filter (fun text => truthy text = true)
          (delta_content <$> [delta_frame (VStr "Hel"); delta_frame (VStr "");
                              delta_frame (VStr "lo")]),
        TextEnd SawDone).
Proof.
  assert (Hstream : streamUnified Fragment.parse_json text_stream
                    = ([delta_frame (VStr "Hel"); delta_frame (VStr "");
                        delta_frame (VStr "lo")], SawDone))
    by (vm_compute; reflexivity).
  assert (Hall : Forall has_choices
                   [delta_frame (VStr "Hel"); delta_frame (VStr "");
                    delta_frame (VStr "lo")])
    by (repeat constructor; apply has_choices_delta_frame).
  split; [exact Hstream|]. split; [exact Hall|].
  exact (streamText_of_chat_chunks Fragment.parse_json text_stream _ _ Hstream Hall).
Defined.

(** The texts of that stream: the empty delta is not yielded. *)
Example text_stream_texts :
  streamText Fragment.parse_json text_stream
  = ([VStr "Hel"; VStr "lo"], TextEnd SawDone).
Proof. vm_compute. reflexivity. Qed.

Lemma streamText_throws_without_choices_witness :
  streamUnified Fragment.parse_json usage_stream
  = (([delta_frame (VStr "Hel")] ++ VObj usage_props :: [delta_frame (VStr "lo")])%list,
     SourceExhausted)
  /\ Forall has_choices [delta_frame (VStr "Hel")]
  /\ is_nullish (get usage_props "choices") = true
  /\ exists msg,
       streamText Fragment.parse_json usage_stream
       = (filter (fun text => truthy text = true)
            (delta_content <$> [delta_frame (VStr "Hel")]),
          TextThrew (TypeError msg)).
Proof.
  assert (Hstream : streamUnified Fragment.parse_json usage_stream
                    = (([delta_frame (VStr "Hel")]
                        ++ VObj usage_props :: [delta_frame (VStr "lo")])%list,
                       SourceExhausted))
    by (vm_compute; reflexivity).
  assert (Hall : Forall has_choices [delta_frame (VStr "Hel")])
    by (repeat constructor; apply has_choices_delta_frame).
  split; [exact Hstream|]. split; [exact Hall|]. split; [reflexivity|].
  exact (streamText_throws_without_choices Fragment.parse_json usage_stream
           _ _ _ _ Hstream Hall eq_refl).
Defined.

(** The usage frame ends the texts: the delta after it is never yielded. *)
Example usage_stream_texts :
  streamText Fragment.parse_json usage_stream
  = ([VStr "Hel"],
     TextThrew (TypeError "Cannot read properties of undefined (reading '0')")).
Proof. vm_compute. reflexivity. Qed.

(* ===================================================================== *)
(** ** More on the stream decoder                                         *)
(* ===================================================================== *)

Section DecoderMore.

Variable JSON_parse : string -> option value.

(** X27: the frames and the ending depend on the text of the stream only,
    not on how the reader cuts it into chunks, for any text and any number
    of chunks. *)
Theorem streamUnified_chunking_independent chunks chunks' :
  whole chunks = whole chunks' ->
  streamUnified JSON_parse chunks = streamUnified JSON_parse chunks'.
Proof. intros H. rewrite !streamUnified_whole, H. reflexivity. Qed.

(** X28: nothing after a complete [[DONE]] line is decoded: two inputs that
    agree up to and including that line give the same frames, and the
    generator ends by [return]. *)
Theorem streamUnified_stops_at_done chunks chunks' before line rest rest' :
  whole chunks = before ++ line ++ nl ++ rest ->
  whole chunks' = before ++ line ++ nl ++ rest' ->
  ends_lines before ->
  newline_free line ->
  is_done_line line = true ->
  streamUnified JSON_parse chunks = streamUnified JSON_parse chunks'
  /\ (streamUnified JSON_parse chunks).2 = SawDone.
Proof.
  intros Hin Hin' Hbefore Hfree Hdone.
  rewrite !streamUnified_whole, Hin, Hin'.
  rewrite (complete_lines_app before (line ++ nl ++ rest)),
    (complete_lines_app before (line ++ nl ++ rest')).
  unfold ends_lines in Hbefore. rewrite Hbefore. change ("" ++ ?s) with s.
  rewrite !(complete_lines_line _ _ Hfree), !process_lines_app,
    !(process_lines_done _ _ _ Hdone).
  destruct (process_lines JSON_parse (complete_lines before)) as [frames []];
    split; reflexivity.
Qed.

(** X29: a complete line that does not begin with ["data: "] (a blank line,
    a comment, an [event:] line, a [data:] line without the space) leaves no
    trace: the generator yields and ends as on the input without it. *)
Theorem streamUnified_ignores_other_lines chunks chunks' before line rest :
  whole chunks = before ++ line ++ nl ++ rest ->
  whole chunks' = before ++ rest ->
  ends_lines before ->
  newline_free line ->
  String.prefix "data: " line = false ->
  streamUnified JSON_parse chunks = streamUnified JSON_parse chunks'.
Proof.
  intros Hin Hin' Hbefore Hfree Hprefix.
  rewrite !streamUnified_whole, Hin, Hin'.
  rewrite (complete_lines_app before (line ++ nl ++ rest)),
    (complete_lines_app before rest).
  unfold ends_lines in Hbefore. rewrite Hbefore. change ("" ++ ?s) with s.
  rewrite (complete_lines_line _ _ Hfree), !process_lines_app,
    (process_lines_other _ _ _ Hprefix).
  reflexivity.
Qed.

End DecoderMore.

(** *** Lines that end with a carriage return *)

Lemma trim_end_snoc s c :
  is_white_space c = true -> trim_end (s ++ String c EmptyString) = trim_end s.
Proof.
  intros Hc. induction s as [|a s IH].
  - change (trim_end (String c EmptyString) = trim_end EmptyString).
    cbn [trim_end]. rewrite Hc. reflexivity.
  - rewrite append_cons. cbn [trim_end]. rewrite IH. reflexivity.
Qed.

Lemma trim_snoc s c :
  is_white_space c = true -> trim (s ++ String c EmptyString) = trim s.
Proof.
  intros Hc. unfold trim. induction s as [|a s IH].
  - change (trim_end (trim_start (String c EmptyString))
            = trim_end (trim_start EmptyString)).
    cbn [trim_start]. rewrite Hc. reflexivity.
  - rewrite append_cons. cbn [trim_start]. destruct (is_white_space a); [exact IH|].
    rewrite <- append_cons. apply trim_end_snoc, Hc.
Qed.

Lemma prefix_snoc c l : forall p,
  (forall a, In a (list_ascii_of_string p) -> a <> c) ->
  String.prefix p (l ++ String c EmptyString) = String.prefix p l.
Proof.
  induction l as [|b l IH]; intros [|a p] Hp; try reflexivity.
  - change (String.prefix (String a p) (String c EmptyString)
            = String.prefix (String a p) EmptyString).
    cbn [String.prefix]. destruct (ascii_dec a c) as [->|]; [|reflexivity].
    destruct (Hp c); [left|]; reflexivity.
  - rewrite append_cons. cbn [String.prefix].
    destruct (ascii_dec a b); [|reflexivity].
    apply IH. intros a' Ha'. apply Hp. right. exact Ha'.
Qed.

Lemma prefix_slice t : forall p l,
  String.prefix p l = true ->
  slice (String.length p) (l ++ t) = slice (String.length p) l ++ t.
Proof.
  induction p as [|a p IH]; intros l Hp; [reflexivity|].
  destruct l as [|b l]; [discriminate|].
  cbn [String.prefix] in Hp. destruct (ascii_dec a b); [|discriminate].
  rewrite append_cons. cbn [String.length slice]. apply IH, Hp.
Qed.

Lemma data_prefix_cr line :
  String.prefix "data: " (line ++ cr) = String.prefix "data: " line.
Proof.
  apply prefix_snoc. cbn [list_ascii_of_string In].
  intros a Ha. repeat (destruct Ha as [<-|Ha]; [discriminate|]). destruct Ha.
Qed.

Lemma terminated_lines lines :
  Forall newline_free lines -> complete_lines (terminated nl lines) = lines.
Proof.
  induction 1 as [|line lines Hline _ IH]; [reflexivity|].
  cbn [terminated]. rewrite (complete_lines_line _ _ Hline), IH. reflexivity.
Qed.

Lemma terminated_crlf_lines lines :
  Forall newline_free lines ->
  complete_lines (terminated (cr ++ nl) lines) = (fun line => line ++ cr) <$> lines.
Proof.
  induction 1 as [|line lines Hline _ IH]; [reflexivity|].
  cbn [terminated fmap list_fmap].
  rewrite (append_assoc cr nl), <- (append_assoc line cr).
  rewrite complete_lines_line, IH; [reflexivity|].
  apply newline_free_app; [exact Hline | reflexivity].
Qed.

Section CarriageReturn.

Variable JSON_parse : string -> option value.

Lemma process_lines_cr lines :
  process_lines JSON_parse ((fun line => line ++ cr) <$> lines)
  = process_lines JSON_parse lines.
Proof.
  induction lines as [|line lines IH]; [reflexivity|].
  cbn [fmap list_fmap process_lines]. rewrite data_prefix_cr.
  destruct (String.prefix "data: " line) eqn:Hp; [|exact IH].
  change 6%nat with (String.length "data: ").
  rewrite (prefix_slice cr _ _ Hp), (trim_snoc _ carriage_return eq_refl).
  fold (fmap (M := list) (fun line => line ++ cr) lines). rewrite IH. reflexivity.
Qed.

(** X30: a stream whose lines end with a carriage return and a newline
    decodes exactly as the same lines ended by a newline alone, however
    either text is cut into chunks. *)
Theorem streamUnified_accepts_crlf chunks chunks' lines :
  Forall newline_free lines ->
  whole chunks = terminated (cr ++ nl) lines ->
  whole chunks' = terminated nl lines ->
  streamUnified JSON_parse chunks = streamUnified JSON_parse chunks'.
Proof.
  intros Hlines Hin Hin'. rewrite !streamUnified_whole, Hin, Hin'.
  rewrite (terminated_crlf_lines _ Hlines), (terminated_lines _ Hlines).
  rewrite process_lines_cr. reflexivity.
Qed.

End CarriageReturn.

Lemma streamUnified_chunking_independent_witness :
  whole [example_first; example_second] = whole [sse_example]
  /\ streamUnified Fragment.parse_json [example_first; example_second]
     = streamUnified Fragment.parse_json [sse_example].
Proof.
  assert (H : whole [example_first; example_second] = whole [sse_example])
    by (vm_compute; reflexivity).
  split; [exact H|].
  exact (streamUnified_chunking_independent Fragment.parse_json _ _ H).
Defined.

Lemma streamUnified_stops_at_done_witness :
  whole [frame_line "1" ++ nl; nl ++ "data: [DONE]" ++ nl ++ nl ++ frame_line "2" ++ nl]
    = (frame_line "1" ++ nl ++ nl) ++ "data: [DONE]" ++ nl ++ (nl ++ frame_line "2" ++ nl)
  /\ whole [frame_line "1" ++ nl ++ nl ++ "data: [DONE]" ++ nl]
     = (frame_line "1" ++ nl ++ nl) ++ "data: [DONE]" ++ nl ++ ""
  /\ ends_lines (frame_line "1" ++ nl ++ nl)
  /\ newline_free "data: [DONE]"
  /\ is_done_line "data: [DONE]" = true
  /\ streamUnified Fragment.parse_json
       [frame_line "1" ++ nl; nl ++ "data: [DONE]" ++ nl ++ nl ++ frame_line "2" ++ nl]
     = streamUnified Fragment.parse_json
         [frame_line "1" ++ nl ++ nl ++ "data: [DONE]" ++ nl]
  /\ (streamUnified Fragment.parse_json
        [frame_line "1" ++ nl;
         nl ++ "data: [DONE]" ++ nl ++ nl ++ frame_line "2" ++ nl]).2 = SawDone.
Proof.
  assert (Hin : whole [frame_line "1" ++ nl;
                       nl ++ "data: [DONE]" ++ nl ++ nl ++ frame_line "2" ++ nl]
                = (frame_line "1" ++ nl ++ nl) ++ "data: [DONE]" ++ nl
                  ++ (nl ++ frame_line "2" ++ nl))
    by (vm_compute; reflexivity).
  assert (Hin' : whole [frame_line "1" ++ nl ++ nl ++ "data: [DONE]" ++ nl]
                 = (frame_line "1" ++ nl ++ nl) ++ "data: [DONE]" ++ nl ++ "")
    by (vm_compute; reflexivity).
  assert (Hends : ends_lines (frame_line "1" ++ nl ++ nl)) by (vm_compute; reflexivity).
  assert (Hfree : newline_free "data: [DONE]") by (vm_compute; reflexivity).
  assert (Hdone : is_done_line "data: [DONE]" = true) by (vm_compute; reflexivity).
  repeat (split; [assumption|]).
  exact (streamUnified_stops_at_done Fragment.parse_json _ _ _ _ _ _
           Hin Hin' Hends Hfree Hdone).
Defined.

Lemma streamUnified_ignores_other_lines_witness :
  whole [unspaced_line ++ nl ++ frame_line "2" ++ nl]
    = "" ++ unspaced_line ++ nl ++ (frame_line "2" ++ nl)
  /\ whole [frame_line "2" ++ nl] = "" ++ (frame_line "2" ++ nl)
  /\ ends_lines ""
  /\ newline_free unspaced_line
  /\ String.prefix "data: " unspaced_line = false
  /\ streamUnified Fragment.parse_json [unspaced_line ++ nl ++ frame_line "2" ++ nl]
     = streamUnified Fragment.parse_json [frame_line "2" ++ nl].
Proof.
  assert (Hin : whole [unspaced_line ++ nl ++ frame_line "2" ++ nl]
                = "" ++ unspaced_line ++ nl ++ (frame_line "2" ++ nl))
    by (vm_compute; reflexivity).
  assert (Hin' : whole [frame_line "2" ++ nl] = "" ++ (frame_line "2" ++ nl))
    by (vm_compute; reflexivity).
  assert (Hends : ends_lines "") by reflexivity.
  assert (Hfree : newline_free unspaced_line) by (vm_compute; reflexivity).
  assert (Hprefix : String.prefix "data: " unspaced_line = false)
    by (vm_compute; reflexivity).
  repeat (split; [assumption|]).
  exact (streamUnified_ignores_other_lines Fragment.parse_json _ _ _ _ _
           Hin Hin' Hends Hfree Hprefix).
Defined.

(** The frame of the line without the space is lost. *)
Example unspaced_line_dropped :
  Fragment.parse_json (payload_a "1") = Some (frame_a "1")
  /\ streamUnified Fragment.parse_json [unspaced_line ++ nl ++ frame_line "2" ++ nl]
     = ([frame_a "2"], SourceExhausted).
Proof. split; vm_compute; reflexivity. Qed.

Lemma sample_lines_free : Forall newline_free sample_lines.
Proof. repeat constructor. Qed.

Lemma streamUnified_accepts_crlf_witness :
  Forall newline_free sample_lines
  /\ whole [terminated (cr ++ nl) sample_lines] = terminated (cr ++ nl) sample_lines
  /\ whole [terminated nl sample_lines] = terminated nl sample_lines
  /\ streamUnified Fragment.parse_json [terminated (cr ++ nl) sample_lines]
     = streamUnified Fragment.parse_json [terminated nl sample_lines].
Proof.
  assert (Hin : whole [terminated (cr ++ nl) sample_lines]
                = terminated (cr ++ nl) sample_lines) by (vm_compute; reflexivity).
  assert (Hin' : whole [terminated nl sample_lines] = terminated nl sample_lines)
    by (vm_compute; reflexivity).
  split; [exact sample_lines_free|]. split; [exact Hin|]. split; [exact Hin'|].
  exact (streamUnified_accepts_crlf Fragment.parse_json _ _ _
           sample_lines_free Hin Hin').
Defined.

Example sample_lines_decoded :
  streamUnified Fragment.parse_json [terminated (cr ++ nl) sample_lines]
  = ([frame_a "1"; frame_a "2"], SawDone).
Proof. vm_compute. reflexivity. Qed.
